(** * Vision Pinch Control: the interaction core of [src/App.tsx]

    The component [App] keeps its state in React hooks ([useState] cells and
    one [useRef] cell) and changes it from four places: the hand-tracking
    callback [onHandData], the gesture effect (the second [useEffect]), the
    asynchronous handler [handleItemClick] and [closeModal].  This file embeds
    these four as functions on an explicit state record and proves the
    behavioural properties of the interaction state machine.

    Modelling conventions.
    - The two setters of [onHandData] are batched into one render, and the
      effect that follows sees both new values.
    - [step] and [run] handle every event on the state that the event before
      it left: a render is committed between any two events.  The guard of
      [handleItemClick] reads the closure of the last committed render, so
      a click that is handled before React has rendered again reads older
      values; [stepLive] and [runLive] make the commits events of their own
      and cover these schedules too.
    - A [useState] setter called with a value is a field update; the last
      write of a handler wins.
    - A call of [handleItemClick] suspended at [await getFunFact(..)] is an
      entry of the list [awaiting]; the Fact Provider settling that promise
      is the event that resumes the call.
    - [document.elementFromPoint] is an input of every run of the gesture
      effect, because the rendered page changes between frames. *)

From Stdlib Require Import String List Bool Arith Lia PrimFloat.
Import ListNotations.
Open Scope string_scope.
Open Scope list_scope.

(** ** [src/types.ts] *)

(** The TypeScript type [number]: an IEEE 754 binary64 value. *)
Definition number : Set := float.

Module types.

Record ClickableItem : Set := mkClickableItem {
  id : string;
  title : string;
  image : string
}.

Record Cursor : Set := mkCursor {
  x : number;
  y : number
}.

Record HandData : Set := mkHandData {
  cursor : Cursor;
  isPinching : bool
}.

End types.

Abbreviation ClickableItem := types.ClickableItem.
Abbreviation HandData := types.HandData.

(** ** The part of the DOM that the gesture effect reads *)

Module DOM.

(** An element as the effect sees it: the value of its own
    [data-clickable-id] attribute, if it has one, and its parent, if it
    is not the root of the page. *)
Inductive Element : Set :=
| Root (clickableId : option string)
| Child (clickableId : option string) (parent : Element).

(** [card.getAttribute('data-clickable-id')]. *)
Definition getAttribute (e : Element) : option string :=
  match e with
  | Root a => a
  | Child a _ => a
  end.

(** [element.closest('[data-clickable-id]')]: the element itself or its
    nearest ancestor that carries the attribute. *)
Fixpoint closest (e : Element) : option Element :=
  match e with
  | Root (Some _) | Child (Some _) _ => Some e
  | Root None => None
  | Child None p => closest p
  end.

(** [document.elementFromPoint]. *)
Definition Document : Set := number -> number -> option Element.

End DOM.

(** ** [src/App.tsx] *)

Definition INTERACTIVE_ITEMS : list ClickableItem :=
  [ types.mkClickableItem "earth" "Planet Earth"
      "https://picsum.photos/seed/earth/400/600";
    types.mkClickableItem "saturn" "Saturn"
      "https://picsum.photos/seed/saturn/400/600";
    types.mkClickableItem "galaxy" "A Distant Galaxy"
      "https://picsum.photos/seed/galaxy/400/600" ].

(** The hook cells of [App], followed by the two pieces of the environment
    that the handlers act on: the calls of [handleItemClick] that wait for
    the Fact Provider (oldest first, each with the [item] it was called
    with), and what was written with [console.error]. *)
Record App : Set := mkApp {
  isAppReady : bool;
  handData : option HandData;
  isPinching : bool;
  wasPinchingRef : bool;
  hoveredItemId : option string;
  selectedItem : option ClickableItem;
  modalContent : string;
  isModalLoading : bool;
  awaiting : list ClickableItem;
  console : list string
}.

(** The state of the first render: the initial values of the hooks. *)
Definition initialApp : App :=
  mkApp false None false false None None "" false [] [].

Definition setHandData (v : option HandData) (s : App) : App :=
  mkApp (isAppReady s) v (isPinching s) (wasPinchingRef s) (hoveredItemId s)
        (selectedItem s) (modalContent s) (isModalLoading s)
        (awaiting s) (console s).

Definition setIsPinching (v : bool) (s : App) : App :=
  mkApp (isAppReady s) (handData s) v (wasPinchingRef s) (hoveredItemId s)
        (selectedItem s) (modalContent s) (isModalLoading s)
        (awaiting s) (console s).

Definition setWasPinchingRef (v : bool) (s : App) : App :=
  mkApp (isAppReady s) (handData s) (isPinching s) v (hoveredItemId s)
        (selectedItem s) (modalContent s) (isModalLoading s)
        (awaiting s) (console s).

Definition setHoveredItemId (v : option string) (s : App) : App :=
  mkApp (isAppReady s) (handData s) (isPinching s) (wasPinchingRef s) v
        (selectedItem s) (modalContent s) (isModalLoading s)
        (awaiting s) (console s).

Definition setSelectedItem (v : option ClickableItem) (s : App) : App :=
  mkApp (isAppReady s) (handData s) (isPinching s) (wasPinchingRef s)
        (hoveredItemId s) v (modalContent s) (isModalLoading s)
        (awaiting s) (console s).

Definition setModalContent (v : string) (s : App) : App :=
  mkApp (isAppReady s) (handData s) (isPinching s) (wasPinchingRef s)
        (hoveredItemId s) (selectedItem s) v (isModalLoading s)
        (awaiting s) (console s).

Definition setIsModalLoading (v : bool) (s : App) : App :=
  mkApp (isAppReady s) (handData s) (isPinching s) (wasPinchingRef s)
        (hoveredItemId s) (selectedItem s) (modalContent s) v
        (awaiting s) (console s).

Definition setAwaiting (v : list ClickableItem) (s : App) : App :=
  mkApp (isAppReady s) (handData s) (isPinching s) (wasPinchingRef s)
        (hoveredItemId s) (selectedItem s) (modalContent s)
        (isModalLoading s) v (console s).

(** [console.error(err)]. *)
Definition consoleError (err : string) (s : App) : App :=
  mkApp (isAppReady s) (handData s) (isPinching s) (wasPinchingRef s)
        (hoveredItemId s) (selectedItem s) (modalContent s)
        (isModalLoading s) (awaiting s) (console s ++ [err]).

(** [onHandData], lines 29-32. *)
Definition onHandData (data : HandData) (s : App) : App :=
  setIsPinching (types.isPinching data) (setHandData (Some data) s).

(** *** [handleItemClick], lines 42-57 *)

(** The guard of line 43:
    [selectedItem?.id === item.id || isModalLoading]. *)
Definition alreadyOpenOrLoading (item : ClickableItem) (s : App) : bool :=
  match selectedItem s with
  | Some sel => String.eqb (types.id sel) (types.id item)
  | None => false
  end || isModalLoading s.

(** [getFunFact(item.title)] is called and the handler suspends at
    [await]. *)
Definition callGetFunFact (item : ClickableItem) (s : App) : App :=
  setAwaiting (awaiting s ++ [item]) s.

(** The synchronous part, up to the [await]. *)
Definition handleItemClick (item : ClickableItem) (s : App) : App :=
  if alreadyOpenOrLoading item s then s
  else
    callGetFunFact item
      (setModalContent ""
         (setIsModalLoading true
            (setSelectedItem (Some item) s))).

(** How the promise of [getFunFact] settles. *)
Inductive Settled : Set :=
| Fulfilled (fact : string)
| Rejected (err : string).

(** How a block of statements completes. *)
Inductive Completion : Set :=
| Normal
| Throw (err : string).

Definition fallbackContent : string :=
  "Could not retrieve information at this time.".

(** The rest of the [try] block: [await] yields the fact or throws the
    rejection; line 50 runs only in the first case. *)
Definition tryBlock (r : Settled) (s : App) : App * Completion :=
  match r with
  | Fulfilled fact => (setModalContent fact s, Normal)
  | Rejected err => (s, Throw err)
  end.

(** Lines 51-53. *)
Definition catchBlock (err : string) (s : App) : App * Completion :=
  (setModalContent fallbackContent (consoleError err s), Normal).

(** Lines 54-56. *)
Definition finallyBlock (s : App) : App :=
  setIsModalLoading false s.

(** The part of [handleItemClick] after the [await]: the new state, and
    how the [async] function itself completes. *)
Definition resumeItemClick (r : Settled) (s : App) : App * Completion :=
  let (s1, c1) := tryBlock r s in
  let (s2, c2) :=
    match c1 with
    | Normal => (s1, Normal)
    | Throw err => catchBlock err s1
    end in
  (finallyBlock s2, c2).

(** [removeAt n l]: [l] without its element of index [n]. *)
Fixpoint removeAt {A : Type} (n : nat) (l : list A) : list A :=
  match l, n with
  | [], _ => []
  | _ :: l', 0 => l'
  | a :: l', S n' => a :: removeAt n' l'
  end.

(** The Fact Provider settles the promise of the [n]-th waiting call, which
    resumes it.  There is no such event when no call of that index waits. *)
Definition settle (n : nat) (r : Settled) (s : App) : option App :=
  match nth_error (awaiting s) n with
  | None => None
  | Some _ => Some (fst (resumeItemClick r (setAwaiting (removeAt n (awaiting s)) s)))
  end.

(** *** The gesture effect, lines 59-79 *)

(** Lines 62-65: the card under the cursor. *)
Definition cardIdAt (doc : DOM.Document) (data : HandData) : option string :=
  match doc (types.x (types.cursor data)) (types.y (types.cursor data)) with
  | None => None
  | Some element =>
      match DOM.closest element with
      | None => None
      | Some card => DOM.getAttribute card
      end
  end.

(** [INTERACTIVE_ITEMS.find(item => item.id === cardId)]. *)
Definition itemToClick (cardId : string) : option ClickableItem :=
  find (fun item => String.eqb (types.id item) cardId) INTERACTIVE_ITEMS.

(** One run of the effect.  The second component is the select event of
    this run: the argument of the call [handleItemClick(itemToClick)] of
    line 74 when the run makes it.  The test [justPinched && cardId] takes
    the empty string as false, as JavaScript does. *)
Definition gestureEffect (doc : DOM.Document) (s : App)
  : App * option ClickableItem :=
  match handData s with
  | None => (s, None)
  | Some data =>
      let cardId := cardIdAt doc data in
      let s1 := setHoveredItemId cardId s in
      let justPinched := isPinching s && negb (wasPinchingRef s) in
      let (s2, fired) :=
        match cardId with
        | Some c =>
            if justPinched && negb (String.eqb c "") then
              match itemToClick c with
              | Some item => (handleItemClick item s1, Some item)
              | None => (s1, None)
              end
            else (s1, None)
        | None => (s1, None)
        end in
      (setWasPinchingRef (isPinching s) s2, fired)
  end.

(** A gesture frame: the tracker calls [onHandData], React renders, and the
    effect runs on the page [doc] of that render. *)
Definition processFrame (data : HandData) (doc : DOM.Document) (s : App)
  : App * option ClickableItem :=
  gestureEffect doc (onHandData data s).

(** [closeModal], lines 81-84. *)
Definition closeModal (s : App) : App :=
  setModalContent "" (setSelectedItem None s).

(** ** The events of the component and their sequencing *)

(** What can happen to a mounted [App]: a gesture frame, a click on the
    card of [item] ([onClick] of line 125), the [onClose] of the modal, and
    the Fact Provider settling the promise of the [n]-th waiting call. *)
Inductive Event : Set :=
| GestureFrame (data : HandData) (doc : DOM.Document)
| CardClick (item : ClickableItem)
| CloseModal
| FactSettled (n : nat) (r : Settled).

(** One event, handled with the callbacks of a render that has committed
    everything written before: the guard of a click reads [s] itself. *)
Definition step (e : Event) (s : App) : option App :=
  match e with
  | GestureFrame data doc => Some (fst (processFrame data doc s))
  | CardClick item => Some (handleItemClick item s)
  | CloseModal => Some (closeModal s)
  | FactSettled n r => settle n r s
  end.

Fixpoint run (es : list Event) (s : App) : option App :=
  match es with
  | [] => Some s
  | e :: es' =>
      match step e s with
      | Some s' => run es' s'
      | None => None
      end
  end.

Definition isFactSettled (e : Event) : bool :=
  match e with
  | FactSettled _ _ => true
  | _ => false
  end.

(** *** Gesture streams *)

(** A frame of the stream: the sample and the page it is tested against. *)
Definition Frame : Set := HandData * DOM.Document.

(** The select events of a stream of frames, one entry per frame. *)
Fixpoint selectTrace (fs : list Frame) (s : App)
  : list (option ClickableItem) :=
  match fs with
  | [] => []
  | (data, doc) :: fs' =>
      let (s', fired) := processFrame data doc s in
      fired :: selectTrace fs' s'
  end.

(** The catalog item under the cursor of a frame, if there is one. *)
Definition catalogHit (f : Frame) : option ClickableItem :=
  match cardIdAt (snd f) (fst f) with
  | Some c => itemToClick c
  | None => None
  end.

(** *** Maximal runs (the specification's vocabulary)

    [pinchRuns flag l] cuts [l] into its maximal blocks of consecutive
    elements on which [flag] holds; the other elements are dropped.  An
    element that satisfies [flag] joins the run of its successor when the
    successor satisfies [flag] too ([headFlag]), and starts a run of its
    own otherwise. *)
Definition headFlag {A : Type} (flag : A -> bool) (l : list A) : bool :=
  match l with
  | b :: _ => flag b
  | [] => false
  end.

Fixpoint pinchRuns {A : Type} (flag : A -> bool) (l : list A)
  : list (list A) :=
  match l with
  | [] => []
  | a :: l' =>
      if flag a then
        match pinchRuns flag l' with
        | r :: rs =>
            if headFlag flag l' then (a :: r) :: rs
            else [a] :: r :: rs
        | [] => [[a]]
        end
      else pinchRuns flag l'
  end.

(** A frame together with the select event it produced. *)
Definition Observed : Set := Frame * option ClickableItem.

Definition pinching (o : Observed) : bool := types.isPinching (fst (fst o)).

Definition fired (o : Observed) : bool :=
  match snd o with
  | Some _ => true
  | None => false
  end.

Definition selectCount (r : list Observed) : nat :=
  length (filter fired r).

Definition observe (fs : list Frame) (s : App) : list Observed :=
  combine fs (selectTrace fs s).

(** *** Auxiliary notions of the proofs *)

(** What one run of the effect fires, read off its inputs. *)
Definition firedBy (doc : DOM.Document) (data : HandData) (pinch was : bool)
  : option ClickableItem :=
  if pinch && negb was then catalogHit (data, doc) else None.

(** The select events of a stream, computed from the pinch flags alone:
    [was] is the flag of the frame before. *)
Fixpoint edgeTrace (was : bool) (fs : list Frame)
  : list (option ClickableItem) :=
  match fs with
  | [] => []
  | f :: fs' =>
      firedBy (snd f) (fst f) (types.isPinching (fst f)) was
      :: edgeTrace (types.isPinching (fst f)) fs'
  end.

(** A stretch of frames that fires nothing. *)
Definition quiet (r : list Observed) : Prop :=
  Forall (fun o => snd o = None) r.

(** A run whose first frame fires for the catalog item under its cursor,
    if there is one, and whose other frames fire nothing. *)
Definition headed (r : list Observed) : Prop :=
  exists f rest,
    r = (f, catalogHit f) :: rest /\ quiet rest /\
    selectCount r = match catalogHit f with Some _ => 1 | None => 0 end.

(** Whether a stream starts with a pinching frame. *)
Definition headPinching (fs : list Frame) : bool :=
  match fs with
  | f :: _ => types.isPinching (fst f)
  | [] => false
  end.

(** The four cells of the detail view and of the waiting calls. *)
Definition detail (s : App)
  : option ClickableItem * string * bool * list ClickableItem :=
  (selectedItem s, modalContent s, isModalLoading s, awaiting s).

(** The loading flag tells whether a call waits, and at most one does
    (kept along a [run]). *)
Definition oneFetch (s : App) : Prop :=
  (isModalLoading s = false /\ awaiting s = []) \/
  (isModalLoading s = true /\ exists item, awaiting s = [item]).

(** ** Sample pages, samples and items *)

Module Sample.

(** A page whose every point lies on an image inside the card [cid]. *)
Definition pageOver (cid : string) : DOM.Document :=
  fun _ _ => Some (DOM.Child None (DOM.Child (Some cid) (DOM.Root None))).

(** A page whose every point lies on the background. *)
Definition pageBackground : DOM.Document :=
  fun _ _ => Some (DOM.Child None (DOM.Root None)).

(** A cursor outside the viewport: [elementFromPoint] yields [null]. *)
Definition pageOutside : DOM.Document :=
  fun _ _ => None.

Definition hand (p : bool) : HandData :=
  types.mkHandData (types.mkCursor 640%float 360.5%float) p.

Definition earth : ClickableItem :=
  types.mkClickableItem "earth" "Planet Earth"
    "https://picsum.photos/seed/earth/400/600".

Definition saturn : ClickableItem :=
  types.mkClickableItem "saturn" "Saturn"
    "https://picsum.photos/seed/saturn/400/600".

End Sample.

(** ** The rest of [App]: readiness and the rendered tree *)

Definition setIsAppReady (v : bool) (s : App) : App :=
  mkApp v (handData s) (isPinching s) (wasPinchingRef s) (hoveredItemId s)
        (selectedItem s) (modalContent s) (isModalLoading s)
        (awaiting s) (console s).

(** The truth value that JavaScript gives a [string | null]: [null] and the
    empty string count as false. *)
Definition truthy (v : option string) : bool :=
  match v with
  | Some str => negb (str =? "")
  | None => false
  end.

Module useHandTracking.

(** What the hook returns at a render, line 34.  The hook itself is not
    part of this file; its result is an input. *)
Record result : Set := mkResult {
  isReady : bool;
  error : option string
}.

End useHandTracking.

(** A mounted component: the hook cells, the result of [useHandTracking] at
    the last render, and the number of callbacks of line 38 that
    [setTimeout] still holds. *)
Record Mounted : Set := mkMounted {
  app : App;
  tracking : useHandTracking.result;
  timers : nat
}.

(** The readiness effect, lines 36-40: one more timer when the tracker is
    ready and [handTrackingError] is not truthy.  The effect returns no
    cleanup, so a timer, once set, is never cleared. *)
Definition readinessEffect (m : Mounted) : Mounted :=
  if useHandTracking.isReady (tracking m)
     && negb (truthy (useHandTracking.error (tracking m)))
  then mkMounted (app m) (tracking m) (S (timers m))
  else m.

(** The comparison of the dependency array
    [[isHandTrackingReady, handTrackingError]] between two renders. *)
Definition sameDeps (a b : useHandTracking.result) : bool :=
  Bool.eqb (useHandTracking.isReady a) (useHandTracking.isReady b)
  && match useHandTracking.error a, useHandTracking.error b with
     | Some ea, Some eb => ea =? eb
     | None, None => true
     | _, _ => false
     end.

(** The first render and its effects, the hook returning [t]. *)
Definition mount (t : useHandTracking.result) : Mounted :=
  readinessEffect (mkMounted initialApp t 0).

(** The events of a mounted component: an event of the interaction core, a
    render in which the hook returns [t], and the firing of a timer, which
    runs [setIsAppReady(true)]. *)
Inductive MountedEvent : Set :=
| AppEvent (e : Event)
| TrackingRendered (t : useHandTracking.result)
| TimerFired.

Definition stepMounted (e : MountedEvent) (m : Mounted) : option Mounted :=
  match e with
  | AppEvent e' =>
      match step e' (app m) with
      | Some s => Some (mkMounted s (tracking m) (timers m))
      | None => None
      end
  | TrackingRendered t =>
      if sameDeps (tracking m) t then Some m
      else Some (readinessEffect (mkMounted (app m) t (timers m)))
  | TimerFired =>
      match timers m with
      | 0 => None
      | S k => Some (mkMounted (setIsAppReady true (app m)) (tracking m) k)
      end
  end.

Fixpoint runMounted (es : list MountedEvent) (m : Mounted) : option Mounted :=
  match es with
  | [] => Some m
  | e :: es' =>
      match stepMounted e m with
      | Some m' => runMounted es' m'
      | None => None
      end
  end.

(** *** The rendered tree, lines 86-152: the props of the child components *)

Module ClickableCard.

Record props : Set := mkProps {
  item : ClickableItem;
  isHovered : bool;
  isSelected : bool;
  onClick : App -> App
}.

End ClickableCard.

Module InfoModal.

Record props : Set := mkProps {
  isOpen : bool;
  onClose : App -> App;
  item : option ClickableItem;
  content : string;
  isLoading : bool
}.

End InfoModal.

Module VisionCursor.

Record props : Set := mkProps {
  x : number;
  y : number;
  isPinching : bool
}.

End VisionCursor.

(** The overlay of lines 92-107: the error text, or the spinner. *)
Inductive Overlay : Set :=
| ErrorOverlay (message : string)
| InitializingOverlay.

Record View : Set := mkView {
  overlay : option Overlay;
  mainOpaque : bool;
  cards : list ClickableCard.props;
  modal : InfoModal.props;
  cursor : option VisionCursor.props
}.

(** [hoveredItemId === item.id]. *)
Definition cardIsHovered (s : App) (item : ClickableItem) : bool :=
  match hoveredItemId s with
  | Some h => h =? types.id item
  | None => false
  end.

(** [selectedItem?.id === item.id]. *)
Definition cardIsSelected (s : App) (item : ClickableItem) : bool :=
  match selectedItem s with
  | Some sel => types.id sel =? types.id item
  | None => false
  end.

Definition render (m : Mounted) : View :=
  let s := app m in
  mkView
    (if isAppReady s then None
     else
       Some (match useHandTracking.error (tracking m) with
             | Some message =>
                 if message =? "" then InitializingOverlay
                 else ErrorOverlay message
             | None => InitializingOverlay
             end))
    (isAppReady s)
    (map (fun item =>
            ClickableCard.mkProps item (cardIsHovered s item)
              (cardIsSelected s item) (handleItemClick item))
         INTERACTIVE_ITEMS)
    (InfoModal.mkProps
       (match selectedItem s with Some _ => true | None => false end)
       closeModal (selectedItem s) (modalContent s) (isModalLoading s))
    (match handData s with
     | Some data =>
         Some (VisionCursor.mkProps (types.x (types.cursor data))
                 (types.y (types.cursor data)) (isPinching s))
     | None => None
     end).

(** *** Notions of the properties of whole runs *)

(** The sample of the last gesture frame of a run, if it has one. *)
Fixpoint lastSample (es : list Event) (before : option HandData)
  : option HandData :=
  match es with
  | [] => before
  | GestureFrame data _ :: es' => lastSample es' (Some data)
  | _ :: es' => lastSample es' before
  end.

(** The errors of the rejections of a run, in their order. *)
Fixpoint rejections (es : list Event) : list string :=
  match es with
  | [] => []
  | FactSettled _ (Rejected err) :: es' => err :: rejections es'
  | _ :: es' => rejections es'
  end.

(** Whether the tracker is ready without a truthy error. *)
Definition readyWithoutError (t : useHandTracking.result) : bool :=
  useHandTracking.isReady t && negb (truthy (useHandTracking.error t)).

(** The state of the detail view that the interaction keeps when a render
    is committed between any two events: while a fetch is in flight the
    content is blank and the one waiting call is the call for the open
    item, if the modal is open at all. *)
Definition detailConsistent (s : App) : Prop :=
  (isModalLoading s = false /\ awaiting s = []) \/
  (isModalLoading s = true /\ modalContent s = "" /\
   exists item,
     awaiting s = [item] /\
     (selectedItem s = None \/ selectedItem s = Some item)).

(** The gesture cells after the frames seen so far: the pinch flag and the
    ref agree, and both are the flag of the sample held in [handData]. *)
Definition gestureConsistent (s : App) : Prop :=
  wasPinchingRef s = isPinching s /\
  isPinching s =
    match handData s with
    | Some data => types.isPinching data
    | None => false
    end.

Module SampleMounted.

Definition notReady : useHandTracking.result :=
  useHandTracking.mkResult false None.

Definition ready : useHandTracking.result :=
  useHandTracking.mkResult true None.

Definition failed : useHandTracking.result :=
  useHandTracking.mkResult false (Some "Camera access denied").

Definition galaxy : ClickableItem :=
  types.mkClickableItem "galaxy" "A Distant Galaxy"
    "https://picsum.photos/seed/galaxy/400/600".

End SampleMounted.

(** ** Handlers between renders *)

(** [handleItemClick] as the callback of one render.  The guard of line 43
    reads [selectedItem] and [isModalLoading] from the closure of the render
    that made the callback (dependencies of line 57), here [closure]; the
    setters and the call of the Fact Provider act on the state of the
    moment, [s]. *)
Definition handleItemClickFrom (closure : App) (item : ClickableItem)
           (s : App) : App :=
  if alreadyOpenOrLoading item closure then s
  else
    callGetFunFact item
      (setModalContent ""
         (setIsModalLoading true
            (setSelectedItem (Some item) s))).

(** A component between two renders: the state of the last committed
    render, of which the callbacks read [selectedItem] and
    [isModalLoading], and the state with everything written since. *)
Record Live : Set := mkLive {
  rendered : App;
  current : App
}.

(** React commits a render, or an event is handled with the callbacks of
    the last committed render. *)
Inductive LiveEvent : Set :=
| Committed
| Handled (e : Event).

(** A gesture frame comes with its own render: [onHandData] sets state, the
    render commits it with all that was pending, and the effect of that
    render runs.  A click runs the callback of the last committed render.
    [closeModal] and the rest of a resumed [handleItemClick] read no
    state. *)
Definition stepLive (e : LiveEvent) (w : Live) : option Live :=
  match e with
  | Committed => Some (mkLive (current w) (current w))
  | Handled (GestureFrame data doc) =>
      let c := onHandData data (current w) in
      Some (mkLive c (fst (gestureEffect doc c)))
  | Handled (CardClick item) =>
      Some (mkLive (rendered w)
              (handleItemClickFrom (rendered w) item (current w)))
  | Handled CloseModal =>
      Some (mkLive (rendered w) (closeModal (current w)))
  | Handled (FactSettled n r) =>
      match settle n r (current w) with
      | Some s => Some (mkLive (rendered w) s)
      | None => None
      end
  end.

Fixpoint runLive (es : list LiveEvent) (w : Live) : option Live :=
  match es with
  | [] => Some w
  | e :: es' =>
      match stepLive e w with
      | Some w' => runLive es' w'
      | None => None
      end
  end.

(** The first render. *)
Definition initialLive : Live := mkLive initialApp initialApp.

(** The schedule in which a render is committed before every event. *)
Fixpoint sync (es : list Event) : list LiveEvent :=
  match es with
  | [] => []
  | e :: es' => Committed :: Handled e :: sync es'
  end.


(** What the loading flag guarantees under every schedule: the content is
    blank, a call waits, and the call for the open item is among the
    waiting ones. *)
Definition loadingConsistent (s : App) : Prop :=
  isModalLoading s = true ->
  modalContent s = "" /\
  awaiting s <> [] /\
  forall shown, selectedItem s = Some shown -> In shown (awaiting s).

Module SampleLive.

(** The component right after a pinch over the card of the Earth has opened
    it from the first render: the render of the frame is committed, the
    writes of [handleItemClick] are not yet. *)
Definition afterPinchOnEarth : Live :=
  mkLive (onHandData (Sample.hand true) initialApp)
         (fst (processFrame (Sample.hand true) (Sample.pageOver "earth")
                 initialApp)).

End SampleLive.

(** ** Properties *)

#[local] Arguments itemToClick : simpl never.
#[local] Arguments cardIdAt : simpl never.
#[local] Arguments handleItemClick : simpl never.
#[local] Arguments String.eqb : simpl never.

(** *** The definitions at work *)

Example run_pinch_on_saturn :
  observe [(Sample.hand false, Sample.pageOver "saturn");
           (Sample.hand true, Sample.pageOver "saturn");
           (Sample.hand true, Sample.pageOver "saturn");
           (Sample.hand false, Sample.pageOver "earth");
           (Sample.hand true, Sample.pageOver "earth")] initialApp
  = [(Sample.hand false, Sample.pageOver "saturn", None);
     (Sample.hand true, Sample.pageOver "saturn", Some Sample.saturn);
     (Sample.hand true, Sample.pageOver "saturn", None);
     (Sample.hand false, Sample.pageOver "earth", None);
     (Sample.hand true, Sample.pageOver "earth", Some Sample.earth)].
Proof. reflexivity. Qed.

Example pinchRuns_example :
  pinchRuns (fun b : bool => b) [true; true; false; true; false; false; true]
  = [[true; true]; [true]; [true]].
Proof. reflexivity. Qed.

(** *** The guard of [handleItemClick] *)

Lemma alreadyOpenOrLoading_false (item : ClickableItem) (s : App) :
  alreadyOpenOrLoading item s = false <->
  isModalLoading s = false /\
  (forall sel, selectedItem s = Some sel -> types.id sel <> types.id item).
Proof.
  unfold alreadyOpenOrLoading. rewrite orb_false_iff. split.
  - intros [Hsel Hload]. split; [exact Hload|].
    intros sel Heq. rewrite Heq in Hsel. now apply String.eqb_neq.
  - intros [Hload Hsel]. split; [|exact Hload].
    destruct (selectedItem s) as [sel|]; [|reflexivity].
    apply String.eqb_neq. now apply Hsel.
Qed.

Lemma handleItemClick_blocked (item : ClickableItem) (s : App) :
  alreadyOpenOrLoading item s = true -> handleItemClick item s = s.
Proof. unfold handleItemClick. now intros ->. Qed.

Lemma handleItemClick_loading (item : ClickableItem) (s : App) :
  isModalLoading s = true -> handleItemClick item s = s.
Proof.
  intros H. apply handleItemClick_blocked.
  unfold alreadyOpenOrLoading. rewrite H. apply orb_true_r.
Qed.

Lemma handleItemClick_opens (item : ClickableItem) (s : App) :
  alreadyOpenOrLoading item s = false ->
  handleItemClick item s =
  mkApp (isAppReady s) (handData s) (isPinching s) (wasPinchingRef s)
        (hoveredItemId s) (Some item) "" true (awaiting s ++ [item])
        (console s).
Proof. unfold handleItemClick. now intros ->. Qed.

(** [handleItemClick] writes none of the gesture cells. *)
Lemma handleItemClick_gesture_cells (item : ClickableItem) (s : App) :
  let s' := handleItemClick item s in
  handData s' = handData s /\ isPinching s' = isPinching s /\
  wasPinchingRef s' = wasPinchingRef s /\ hoveredItemId s' = hoveredItemId s.
Proof.
  unfold handleItemClick. destruct (alreadyOpenOrLoading item s); cbn; auto.
Qed.

(** *** The gesture effect *)

Lemma itemToClick_empty : itemToClick "" = None.
Proof. reflexivity. Qed.

Lemma gestureEffect_fired (doc : DOM.Document) (data : HandData) (s : App) :
  handData s = Some data ->
  snd (gestureEffect doc s) = firedBy doc data (isPinching s) (wasPinchingRef s).
Proof.
  intros Hd. unfold gestureEffect, firedBy, catalogHit. rewrite Hd. cbn.
  destruct (cardIdAt doc data) as [c|]; cbn.
  - destruct (isPinching s && negb (wasPinchingRef s)); cbn; [|reflexivity].
    destruct (String.eqb_spec c "") as [->|_]; cbn.
    + now rewrite itemToClick_empty.
    + now destruct (itemToClick c).
  - now destruct (isPinching s && negb (wasPinchingRef s)).
Qed.

Lemma gestureEffect_cells (doc : DOM.Document) (data : HandData) (s : App) :
  handData s = Some data ->
  let s' := fst (gestureEffect doc s) in
  hoveredItemId s' = cardIdAt doc data /\
  wasPinchingRef s' = isPinching s /\
  isPinching s' = isPinching s /\
  handData s' = handData s.
Proof.
  intros Hd. unfold gestureEffect. rewrite Hd. cbn.
  destruct (cardIdAt doc data) as [c|]; cbn; auto.
  destruct (isPinching s && negb (wasPinchingRef s) && negb (c =? ""));
    cbn; auto.
  destruct (itemToClick c) as [item|]; cbn; auto.
  destruct (handleItemClick_gesture_cells item
              (setHoveredItemId (Some c) s)) as (H1 & H2 & H3 & H4).
  cbn in *. repeat split; congruence.
Qed.

(** Without a select event the effect leaves the detail view alone. *)
Lemma gestureEffect_quiet (doc : DOM.Document) (s : App) :
  snd (gestureEffect doc s) = None ->
  let s' := fst (gestureEffect doc s) in
  selectedItem s' = selectedItem s /\ modalContent s' = modalContent s /\
  isModalLoading s' = isModalLoading s /\ awaiting s' = awaiting s.
Proof.
  unfold gestureEffect. destruct (handData s) as [data|]; cbn; auto.
  destruct (cardIdAt doc data) as [c|]; cbn; auto.
  destruct (isPinching s && negb (wasPinchingRef s) && negb (c =? ""));
    cbn; auto.
  destruct (itemToClick c) as [item|]; cbn; auto. discriminate.
Qed.

Lemma processFrame_fired (data : HandData) (doc : DOM.Document) (s : App) :
  snd (processFrame data doc s) =
  firedBy doc data (types.isPinching data) (wasPinchingRef s).
Proof.
  unfold processFrame.
  now rewrite (gestureEffect_fired doc data (onHandData data s)).
Qed.

Lemma processFrame_wasPinching (data : HandData) (doc : DOM.Document)
      (s : App) :
  wasPinchingRef (fst (processFrame data doc s)) = types.isPinching data.
Proof.
  unfold processFrame.
  now destruct (gestureEffect_cells doc data (onHandData data s) eq_refl)
    as (_ & -> & _).
Qed.

(** *** Opening and closing the detail view *)

(** C5.  Calling [handleItemClick item] when [item] is the selected item, or
    while a fetch is in flight ([isModalLoading] is true), changes nothing:
    every hook cell keeps its value and no new call of the Fact Provider
    is added to the waiting ones. *)
Theorem handleItemClick_noop (item : ClickableItem) (s : App) :
  selectedItem s = Some item \/ isModalLoading s = true ->
  handleItemClick item s = s /\
  awaiting (handleItemClick item s) = awaiting s.
Proof.
  intros H.
  assert (Hs : handleItemClick item s = s).
  { destruct H as [Hsel|Hload].
    - apply handleItemClick_blocked. unfold alreadyOpenOrLoading.
      rewrite Hsel, String.eqb_refl. reflexivity.
    - now apply handleItemClick_loading. }
  now rewrite Hs.
Qed.

Lemma handleItemClick_noop_witness :
  (let s := handleItemClick Sample.saturn initialApp in
   (selectedItem s = Some Sample.saturn \/ isModalLoading s = true) /\
   handleItemClick Sample.saturn s = s /\
   awaiting (handleItemClick Sample.saturn s) = awaiting s) /\
  (let s := closeModal (handleItemClick Sample.saturn initialApp) in
   (selectedItem s = Some Sample.earth \/ isModalLoading s = true) /\
   handleItemClick Sample.earth s = s /\
   awaiting (handleItemClick Sample.earth s) = awaiting s).
Proof.
  split; cbv zeta.
  - split; [left; reflexivity|].
    apply (handleItemClick_noop Sample.saturn
             (handleItemClick Sample.saturn initialApp)).
    left; reflexivity.
  - split; [right; reflexivity|].
    apply (handleItemClick_noop Sample.earth
             (closeModal (handleItemClick Sample.saturn initialApp))).
    right; reflexivity.
Defined.

(** C8.  When [handleItemClick item] passes its guard, [selectedItem]
    becomes [item], [isModalLoading] becomes true and [modalContent] becomes
    the empty string, and the Fact Provider is called (one more waiting
    call, for [item]) from a state [s0] in which the three cells are already
    reset. *)
Theorem handleItemClick_resets_detail (item : ClickableItem) (s : App) :
  alreadyOpenOrLoading item s = false ->
  let s' := handleItemClick item s in
  selectedItem s' = Some item /\
  isModalLoading s' = true /\
  modalContent s' = "" /\
  awaiting s' = awaiting s ++ [item] /\
  exists s0,
    s' = callGetFunFact item s0 /\
    selectedItem s0 = Some item /\ isModalLoading s0 = true /\
    modalContent s0 = "" /\ awaiting s0 = awaiting s.
Proof.
  intros Hg s'. subst s'. unfold handleItemClick. rewrite Hg.
  repeat split.
  eexists. split; [reflexivity|]. repeat split.
Qed.

Lemma handleItemClick_resets_detail_witness :
  let s := fst (resumeItemClick (Fulfilled "Earth is round.")
                  (setAwaiting [] (handleItemClick Sample.earth initialApp))) in
  modalContent s = "Earth is round." /\
  alreadyOpenOrLoading Sample.saturn s = false /\
  let s' := handleItemClick Sample.saturn s in
  selectedItem s' = Some Sample.saturn /\
  isModalLoading s' = true /\
  modalContent s' = "" /\
  awaiting s' = awaiting s ++ [Sample.saturn] /\
  exists s0,
    s' = callGetFunFact Sample.saturn s0 /\
    selectedItem s0 = Some Sample.saturn /\ isModalLoading s0 = true /\
    modalContent s0 = "" /\ awaiting s0 = awaiting s.
Proof.
  cbv zeta. split; [reflexivity|]. split; [reflexivity|].
  apply (handleItemClick_resets_detail Sample.saturn). reflexivity.
Defined.

(** C9.  [closeModal] is idempotent: from any state, closing twice gives
    the state that closing once gives, and in it [selectedItem] is empty
    and [modalContent] is the empty string. *)
Theorem closeModal_idempotent (s : App) :
  closeModal (closeModal s) = closeModal s /\
  selectedItem (closeModal s) = None /\
  modalContent (closeModal s) = "".
Proof. repeat split. Qed.

(** *** Failure of the Fact Provider *)

(** C4.  When the Fact Provider rejects for the selected item, the waiting
    call resumes and completes normally: [modalContent] is the fixed
    fallback text, [isModalLoading] is false, the selection is kept and
    the rejection is not thrown on. *)
Theorem rejection_recovered (n : nat) (err : string) (item : ClickableItem)
        (s : App) :
  nth_error (awaiting s) n = Some item ->
  selectedItem s = Some item ->
  exists s',
    settle n (Rejected err) s = Some s' /\
    modalContent s' = "Could not retrieve information at this time." /\
    isModalLoading s' = false /\
    selectedItem s' = Some item /\
    snd (resumeItemClick (Rejected err)
           (setAwaiting (removeAt n (awaiting s)) s)) = Normal.
Proof.
  intros Hn Hsel. unfold settle. rewrite Hn.
  eexists. split; [reflexivity|]. cbn. repeat split. exact Hsel.
Qed.

Lemma rejection_recovered_witness :
  let s := handleItemClick Sample.saturn initialApp in
  nth_error (awaiting s) 0 = Some Sample.saturn /\
  selectedItem s = Some Sample.saturn /\
  exists s',
    settle 0 (Rejected "503") s = Some s' /\
    modalContent s' = "Could not retrieve information at this time." /\
    isModalLoading s' = false /\
    selectedItem s' = Some Sample.saturn /\
    snd (resumeItemClick (Rejected "503")
           (setAwaiting (removeAt 0 (awaiting s)) s)) = Normal.
Proof.
  cbv zeta. split; [reflexivity|]. split; [reflexivity|].
  apply (rejection_recovered 0 "503" Sample.saturn); reflexivity.
Defined.

(** *** Hover and selection by gesture *)

(** C6.  After every gesture frame [hoveredItemId] is the result of the hit
    test at the cursor of the sample, whatever it is: the card id when
    there is one, and empty when there is none. *)
Theorem hover_is_hit_test (data : HandData) (doc : DOM.Document) (s : App) :
  hoveredItemId (fst (processFrame data doc s)) = cardIdAt doc data.
Proof.
  unfold processFrame.
  now destruct (gestureEffect_cells doc data (onHandData data s) eq_refl).
Qed.

(** C7.  When the hit test of a frame is empty, or gives an id that is not
    the id of a catalog item, the frame fires no select event, whatever the
    pinch flag of the sample and of the frame before; the detail view and
    the waiting calls are left as they were. *)
Theorem no_select_without_hit (data : HandData) (doc : DOM.Document)
        (s : App) :
  cardIdAt doc data = None \/
  (exists c, cardIdAt doc data = Some c /\ itemToClick c = None) ->
  snd (processFrame data doc s) = None /\
  let s' := fst (processFrame data doc s) in
  selectedItem s' = selectedItem s /\ modalContent s' = modalContent s /\
  isModalLoading s' = isModalLoading s /\ awaiting s' = awaiting s.
Proof.
  intros H.
  assert (Hnone : snd (processFrame data doc s) = None).
  { rewrite processFrame_fired. unfold firedBy, catalogHit. cbn [fst snd].
    destruct H as [->|(c & -> & ->)];
      now destruct (types.isPinching data && negb (wasPinchingRef s)). }
  split; [exact Hnone|].
  unfold processFrame in *.
  exact (gestureEffect_quiet doc (onHandData data s) Hnone).
Qed.

Lemma no_select_without_hit_witness :
  (cardIdAt Sample.pageOutside (Sample.hand true) = None \/
   (exists c, cardIdAt Sample.pageOutside (Sample.hand true) = Some c /\
              itemToClick c = None)) /\
  snd (processFrame (Sample.hand true) Sample.pageOutside initialApp) = None /\
  (cardIdAt (Sample.pageOver "pluto") (Sample.hand true) = None \/
   (exists c, cardIdAt (Sample.pageOver "pluto") (Sample.hand true) = Some c /\
              itemToClick c = None)) /\
  snd (processFrame (Sample.hand true) (Sample.pageOver "pluto") initialApp)
  = None.
Proof.
  split; [left; reflexivity|]. split.
  - apply (no_select_without_hit (Sample.hand true) Sample.pageOutside
             initialApp).
    left; reflexivity.
  - split; [right; exists "pluto"; split; reflexivity|].
    apply (no_select_without_hit (Sample.hand true) (Sample.pageOver "pluto")
             initialApp).
    right; exists "pluto"; split; reflexivity.
Defined.

(** *** Rising edges of the pinch flag *)

Lemma selectTrace_edgeTrace (fs : list Frame) :
  forall s, selectTrace fs s = edgeTrace (wasPinchingRef s) fs.
Proof.
  induction fs as [|[data doc] fs IH]; intros s; [reflexivity|].
  cbn [selectTrace edgeTrace fst snd].
  pose proof (processFrame_fired data doc s) as Hf.
  pose proof (processFrame_wasPinching data doc s) as Hw.
  destruct (processFrame data doc s) as [s' e]. cbn [fst snd] in *.
  now rewrite IH, Hw, Hf.
Qed.

Lemma quiet_selectCount (r : list Observed) : quiet r -> selectCount r = 0.
Proof.
  unfold selectCount.
  induction 1 as [|[f e] r He _ IH]; [reflexivity|].
  cbn in He. subst e. exact IH.
Qed.

Lemma headed_intro (f : Frame) (rest : list Observed) :
  quiet rest -> headed ((f, catalogHit f) :: rest).
Proof.
  intros Hq. exists f, rest. repeat split; [exact Hq|].
  pose proof (quiet_selectCount rest Hq) as Hc.
  unfold selectCount in *. cbn [filter]. unfold fired at 1. cbn [snd].
  destruct (catalogHit f); cbn [length]; now rewrite Hc.
Qed.

Lemma combine_head_pinching (fs : list Frame) (was : bool) :
  @headFlag Observed pinching (combine fs (edgeTrace was fs))
  = headPinching fs.
Proof. destruct fs as [|f fs]; reflexivity. Qed.

(** The runs of a stream whose state before the first frame has the flag
    [was]: when [was] is set and the stream starts pinching, its first run
    continues a pinch and is quiet; every other run is [headed]. *)
Lemma pinchRuns_shape (fs : list Frame) :
  forall was,
    match pinchRuns pinching (combine fs (edgeTrace was fs)) with
    | [] => True
    | r :: rs =>
        (if was && headPinching fs then quiet r else headed r) /\
        Forall headed rs
    end.
Proof.
  induction fs as [|[data doc] fs IH]; intros was; [exact I|].
  cbn [edgeTrace combine pinchRuns headPinching].
  unfold pinching at 1. cbn [fst snd].
  specialize (IH (types.isPinching data)).
  destruct (types.isPinching data) eqn:Hp.
  - rewrite (combine_head_pinching fs true).
    unfold firedBy. cbn [andb].
    destruct (pinchRuns pinching (combine fs (edgeTrace true fs)))
      as [|r rs].
    + split; [|constructor].
      destruct was; cbn [negb andb].
      * repeat constructor.
      * apply headed_intro. constructor.
    + destruct IH as [Hr Hrs]. cbn [andb] in Hr.
      destruct (headPinching fs).
      * split; [|exact Hrs].
        destruct was; cbn [negb andb].
        -- constructor; [reflexivity|exact Hr].
        -- apply headed_intro. exact Hr.
      * split; [|constructor; assumption].
        destruct was; cbn [negb andb].
        -- repeat constructor.
        -- apply headed_intro. constructor.
  - rewrite andb_false_r.
    destruct (pinchRuns pinching (combine fs (edgeTrace false fs)));
      [exact I|].
    exact IH.
Qed.

Lemma edgeTrace_not_pinching (fs : list Frame) :
  forall was o,
    In o (combine fs (edgeTrace was fs)) -> pinching o = false ->
    snd o = None.
Proof.
  induction fs as [|f fs IH]; intros was o; [intros []|].
  cbn [edgeTrace combine]. intros [<-|Hin] Hp.
  - unfold pinching in Hp. cbn [fst snd] in *. unfold firedBy.
    now rewrite Hp.
  - exact (IH _ o Hin Hp).
Qed.

(** [pinchRuns] keeps exactly the elements that satisfy the flag, in their
    order, and makes no empty run. *)
Lemma pinchRuns_concat {A : Type} (flag : A -> bool) (l : list A) :
  concat (pinchRuns flag l) = filter flag l /\ ~ In [] (pinchRuns flag l).
Proof.
  induction l as [|a l [IHc IHn]]; [split; [reflexivity|intros []]|].
  cbn [pinchRuns filter]. destruct (flag a); [|now split].
  destruct (pinchRuns flag l) as [|r rs].
  - cbn in *. rewrite <- IHc. split; [reflexivity|].
    intros [H|[]]; discriminate.
  - destruct (headFlag flag l).
    + cbn in *. rewrite <- IHc. split; [reflexivity|].
      intros [H|H]; [discriminate|]. apply IHn. now right.
    + cbn in *. rewrite <- IHc. split; [reflexivity|].
      intros [H|H]; [discriminate|]. now apply IHn.
Qed.

(** C1, as the code has it.  In a stream of gesture frames that starts with
    [wasPinchingRef] false, a frame that does not pinch fires nothing, and
    in every maximal run of pinching frames only the first frame can fire:
    it fires for the catalog item under its cursor when there is one and
    fires nothing otherwise, so that a run has one select event when its
    first frame hits a catalog item and none when it does not.  A stream
    that starts pinching has its first frame as the first frame of a run. *)
Theorem select_on_rising_edge (fs : list Frame) (s : App) :
  wasPinchingRef s = false ->
  (forall o, In o (observe fs s) -> pinching o = false -> snd o = None) /\
  Forall
    (fun r =>
       exists f rest,
         r = (f, catalogHit f) :: rest /\
         Forall (fun o => snd o = None) rest /\
         selectCount r = match catalogHit f with Some _ => 1 | None => 0 end)
    (pinchRuns pinching (observe fs s)).
Proof.
  intros Hw. unfold observe. rewrite selectTrace_edgeTrace, Hw. split.
  - apply edgeTrace_not_pinching.
  - pose proof (pinchRuns_shape fs false) as H. cbn [andb] in H.
    destruct (pinchRuns pinching (combine fs (edgeTrace false fs)));
      [constructor|].
    destruct H as [Hr Hrs]. constructor; assumption.
Qed.

Lemma select_on_rising_edge_witness :
  let fs := [(Sample.hand true, Sample.pageOver "saturn");
             (Sample.hand true, Sample.pageOver "earth");
             (Sample.hand false, Sample.pageOver "earth");
             (Sample.hand true, Sample.pageBackground);
             (Sample.hand true, Sample.pageOver "earth")] in
  wasPinchingRef initialApp = false /\
  map snd (observe fs initialApp)
  = [Some Sample.saturn; None; None; None; None] /\
  (forall o, In o (observe fs initialApp) -> pinching o = false ->
             snd o = None) /\
  Forall
    (fun r =>
       exists f rest,
         r = (f, catalogHit f) :: rest /\
         Forall (fun o => snd o = None) rest /\
         selectCount r = match catalogHit f with Some _ => 1 | None => 0 end)
    (pinchRuns pinching (observe fs initialApp)).
Proof.
  cbv zeta. split; [reflexivity|]. split; [reflexivity|].
  apply (select_on_rising_edge
           [(Sample.hand true, Sample.pageOver "saturn");
            (Sample.hand true, Sample.pageOver "earth");
            (Sample.hand false, Sample.pageOver "earth");
            (Sample.hand true, Sample.pageBackground);
            (Sample.hand true, Sample.pageOver "earth")] initialApp).
  reflexivity.
Defined.

(** C1, as it is worded: one select event in every maximal run of pinching
    frames.  It fails on a stream of one pinching frame whose cursor is on
    the background: the stream has one run, and the run has no select
    event. *)
Lemma select_once_per_run_counterexample :
  let fs := [(Sample.hand true, Sample.pageBackground)] in
  pinchRuns pinching (observe fs initialApp)
  = [[(Sample.hand true, Sample.pageBackground, None)]] /\
  ~ (forall fs' : list Frame,
       Forall (fun r => selectCount r = 1)
              (pinchRuns pinching (observe fs' initialApp))).
Proof.
  cbv zeta. split; [reflexivity|].
  intros H.
  specialize (H [(Sample.hand true, Sample.pageBackground)]).
  inversion H as [|r rs Hr _]. discriminate Hr.
Qed.

(** *** A fetch that outlives its selection *)

Lemma nth_error_last {A : Type} (l : list A) (a : A) :
  nth_error (l ++ [a]) (length l) = Some a.
Proof. induction l as [|b l IH]; [reflexivity|exact IH]. Qed.

Lemma removeAt_last {A : Type} (l : list A) (a : A) :
  removeAt (length l) (l ++ [a]) = l.
Proof. induction l as [|b l IH]; [reflexivity|]. cbn. now rewrite IH. Qed.

(** The call that [handleItemClick] has just suspended is resumed by the
    settling of its promise, and every cell but [modalContent],
    [isModalLoading] and [console] is as it was when the promise settles. *)
Lemma settle_waiting (n : nat) (r : Settled) (item : ClickableItem)
      (s : App) :
  nth_error (awaiting s) n = Some item ->
  exists s',
    settle n r s = Some s' /\
    selectedItem s' = selectedItem s /\
    isModalLoading s' = false /\
    modalContent s' =
      match r with
      | Fulfilled fact => fact
      | Rejected _ => fallbackContent
      end /\
    awaiting s' = removeAt n (awaiting s).
Proof.
  intros Hn. unfold settle. rewrite Hn. eexists. split; [reflexivity|].
  destruct r; repeat split.
Qed.

(** C2, as the code has it.  When [closeModal] is called while the fetch of
    [handleItemClick item] is in flight and the fetch then resolves with
    [fact], [selectedItem] stays empty, but the result is applied:
    [modalContent] becomes [fact] and [isModalLoading] becomes false. *)
Theorem fact_applied_after_close (item : ClickableItem) (fact : string)
        (s : App) :
  alreadyOpenOrLoading item s = false ->
  let s2 := closeModal (handleItemClick item s) in
  selectedItem s2 = None /\ modalContent s2 = "" /\
  isModalLoading s2 = true /\
  exists s3,
    settle (length (awaiting s)) (Fulfilled fact) s2 = Some s3 /\
    selectedItem s3 = None /\
    modalContent s3 = fact /\
    isModalLoading s3 = false /\
    awaiting s3 = awaiting s.
Proof.
  intros Hg. rewrite (handleItemClick_opens item s Hg). cbv zeta.
  repeat split.
  unfold settle. cbn [closeModal setModalContent setSelectedItem awaiting].
  rewrite nth_error_last, removeAt_last.
  eexists. split; [reflexivity|]. repeat split.
Qed.

Lemma fact_applied_after_close_witness :
  alreadyOpenOrLoading Sample.earth initialApp = false /\
  let s2 := closeModal (handleItemClick Sample.earth initialApp) in
  selectedItem s2 = None /\ modalContent s2 = "" /\
  isModalLoading s2 = true /\
  exists s3,
    settle (length (awaiting initialApp)) (Fulfilled "Earth is round.") s2
    = Some s3 /\
    selectedItem s3 = None /\
    modalContent s3 = "Earth is round." /\
    isModalLoading s3 = false /\
    awaiting s3 = awaiting initialApp.
Proof.
  split; [reflexivity|].
  apply (fact_applied_after_close Sample.earth "Earth is round." initialApp).
  reflexivity.
Defined.

(** C2, as it is worded, fails: the item is opened from the initial state,
    the modal is closed and the fetch resolves.  The resolution changes the
    state: [modalContent] is no longer empty. *)
Lemma stale_fact_discarded_counterexample :
  let s2 := closeModal (handleItemClick Sample.earth initialApp) in
  selectedItem s2 = None /\ modalContent s2 = "" /\
  exists s3,
    run [CardClick Sample.earth; CloseModal;
         FactSettled 0 (Fulfilled "Earth is round.")] initialApp = Some s3 /\
    settle 0 (Fulfilled "Earth is round.") s2 = Some s3 /\
    modalContent s3 = "Earth is round." /\
    modalContent s3 <> "" /\
    s3 <> s2.
Proof.
  cbv zeta. split; [reflexivity|]. split; [reflexivity|].
  eexists. split; [reflexivity|]. split; [reflexivity|].
  split; [reflexivity|]. split; discriminate.
Qed.


(** *** The loading flag *)

Lemma gestureEffect_loading (doc : DOM.Document) (s : App) :
  isModalLoading s = true ->
  detail (fst (gestureEffect doc s)) = detail s.
Proof.
  intros Hl. unfold gestureEffect.
  destruct (handData s) as [data|]; [|reflexivity].
  destruct (cardIdAt doc data) as [c|]; [|reflexivity].
  destruct (isPinching s && negb (wasPinchingRef s) && negb (c =? ""));
    [|reflexivity].
  destruct (itemToClick c) as [item|]; [|reflexivity].
  cbn [fst]. rewrite handleItemClick_loading; [reflexivity|exact Hl].
Qed.

(** While a fetch is in flight, an event other than the settling of a
    promise happens, keeps the flag set and the waiting calls, and opens
    nothing. *)
Lemma step_while_loading (e : Event) (s : App) :
  isModalLoading s = true ->
  isFactSettled e = false ->
  exists s',
    step e s = Some s' /\
    isModalLoading s' = true /\
    awaiting s' = awaiting s /\
    (selectedItem s = None -> selectedItem s' = None).
Proof.
  intros Hl He. destruct e as [data doc|item| |n r]; cbn [step].
  - eexists. split; [reflexivity|].
    pose proof (gestureEffect_loading doc (onHandData data s) Hl) as Hd.
    unfold processFrame. unfold detail in Hd.
    injection Hd as H1 H2 H3 H4. rewrite H1, H3, H4. cbn. auto.
  - eexists. split; [reflexivity|].
    rewrite handleItemClick_loading by exact Hl. auto.
  - eexists. split; [reflexivity|]. cbn. auto.
  - discriminate He.
Qed.

Lemma run_while_loading (es : list Event) :
  forall s,
    isModalLoading s = true ->
    selectedItem s = None ->
    forallb (fun e => negb (isFactSettled e)) es = true ->
    exists s',
      run es s = Some s' /\
      isModalLoading s' = true /\
      selectedItem s' = None /\
      awaiting s' = awaiting s.
Proof.
  induction es as [|e es IH]; intros s Hl Hsel Hes.
  - exists s. repeat split; assumption.
  - cbn [forallb] in Hes. apply andb_true_iff in Hes as [He Hes].
    apply negb_true_iff in He.
    destruct (step_while_loading e s Hl He) as (s1 & Hs1 & Hl1 & Ha1 & Hn1).
    destruct (IH s1 Hl1 (Hn1 Hsel) Hes) as (s' & Hr & Hl' & Hsel' & Ha').
    exists s'. cbn [run]. rewrite Hs1. repeat split; try assumption.
    congruence.
Qed.

(** C10.  [closeModal] does not write [isModalLoading].  When it is called
    while the fetch of [handleItemClick item] is in flight, the flag is
    still true after it with [selectedItem] empty, it stays true through
    every later frame, click and close, and the settling of the fetch,
    with a fact or with a rejection, sets it to false while [selectedItem]
    is still empty. *)
Theorem closeModal_keeps_loading (item : ClickableItem) (s : App)
        (es : list Event) (r : Settled) :
  alreadyOpenOrLoading item s = false ->
  forallb (fun e => negb (isFactSettled e)) es = true ->
  (forall s0, isModalLoading (closeModal s0) = isModalLoading s0) /\
  let s1 := handleItemClick item s in
  let s2 := closeModal s1 in
  isModalLoading s1 = true /\
  isModalLoading s2 = true /\ selectedItem s2 = None /\
  awaiting s2 = awaiting s1 /\
  exists s' s3,
    run es s2 = Some s' /\
    isModalLoading s' = true /\ selectedItem s' = None /\
    settle (length (awaiting s)) r s' = Some s3 /\
    isModalLoading s3 = false /\ selectedItem s3 = None.
Proof.
  intros Hg Hes. split; [reflexivity|].
  rewrite (handleItemClick_opens item s Hg). cbv zeta.
  repeat (split; [reflexivity|]).
  match goal with |- context [run es ?s2] => set (c := s2) end.
  destruct (run_while_loading es c eq_refl eq_refl Hes)
    as (s' & Hr & Hl & Hsel & Ha).
  destruct (settle_waiting (length (awaiting s)) r item s')
    as (s3 & Hs & Hsel3 & Hl3 & _).
  { rewrite Ha. subst c. cbn. apply nth_error_last. }
  exists s', s3. repeat split; try assumption. congruence.
Qed.

Lemma closeModal_keeps_loading_witness :
  let es := [GestureFrame (Sample.hand true) (Sample.pageOver "saturn");
             CardClick Sample.earth; CloseModal;
             GestureFrame (Sample.hand false) Sample.pageBackground] in
  alreadyOpenOrLoading Sample.earth initialApp = false /\
  forallb (fun e => negb (isFactSettled e)) es = true /\
  (forall s0, isModalLoading (closeModal s0) = isModalLoading s0) /\
  let s1 := handleItemClick Sample.earth initialApp in
  let s2 := closeModal s1 in
  isModalLoading s1 = true /\
  isModalLoading s2 = true /\ selectedItem s2 = None /\
  awaiting s2 = awaiting s1 /\
  exists s' s3,
    run es s2 = Some s' /\
    isModalLoading s' = true /\ selectedItem s' = None /\
    settle (length (awaiting initialApp)) (Rejected "timeout") s' = Some s3 /\
    isModalLoading s3 = false /\ selectedItem s3 = None.
Proof.
  cbv zeta. split; [reflexivity|]. split; [reflexivity|].
  apply (closeModal_keeps_loading Sample.earth initialApp
           [GestureFrame (Sample.hand true) (Sample.pageOver "saturn");
            CardClick Sample.earth; CloseModal;
            GestureFrame (Sample.hand false) Sample.pageBackground]
           (Rejected "timeout")); reflexivity.
Defined.

(** *** At most one fetch in flight *)

Lemma handleItemClick_oneFetch (item : ClickableItem) (s : App) :
  oneFetch s -> oneFetch (handleItemClick item s).
Proof.
  intros Hs. destruct (alreadyOpenOrLoading item s) eqn:Hg.
  - now rewrite handleItemClick_blocked.
  - rewrite (handleItemClick_opens item s Hg). right. split; [reflexivity|].
    apply alreadyOpenOrLoading_false in Hg as [Hl _].
    destruct Hs as [[_ Ha]|[Hl' _]]; [|congruence].
    exists item. cbn. now rewrite Ha.
Qed.

Lemma gestureEffect_detail (doc : DOM.Document) (s : App) :
  detail (fst (gestureEffect doc s)) = detail s \/
  exists item,
    detail (fst (gestureEffect doc s)) = detail (handleItemClick item s).
Proof.
  unfold gestureEffect.
  destruct (handData s) as [data|]; [|now left].
  destruct (cardIdAt doc data) as [c|]; [|now left].
  destruct (isPinching s && negb (wasPinchingRef s) && negb (c =? ""));
    [|now left].
  destruct (itemToClick c) as [item|]; [|now left].
  right. exists item. cbn [fst]. unfold handleItemClick.
  now destruct (alreadyOpenOrLoading item s) eqn:Hg;
    (replace (alreadyOpenOrLoading item (setHoveredItemId (Some c) s))
       with (alreadyOpenOrLoading item s) by reflexivity);
    rewrite Hg.
Qed.

Lemma oneFetch_detail (s s' : App) :
  detail s' = detail s -> oneFetch s -> oneFetch s'.
Proof.
  unfold detail, oneFetch. intros H. injection H as _ _ Hl Ha.
  now rewrite Hl, Ha.
Qed.

Lemma step_oneFetch (e : Event) (s s' : App) :
  oneFetch s -> step e s = Some s' -> oneFetch s'.
Proof.
  intros Hs. destruct e as [data doc|item| |n r]; cbn [step].
  - intros [= <-]. unfold processFrame.
    assert (Hs0 : oneFetch (onHandData data s)) by exact Hs.
    destruct (gestureEffect_detail doc (onHandData data s))
      as [H|[item H]].
    + exact (oneFetch_detail _ _ H Hs0).
    + exact (oneFetch_detail _ _ H (handleItemClick_oneFetch item _ Hs0)).
  - intros [= <-]. now apply handleItemClick_oneFetch.
  - intros [= <-]. exact Hs.
  - unfold settle. destruct Hs as [[_ Ha]|[_ [item Ha]]]; rewrite Ha.
    + now destruct n.
    + destruct n as [|n]; [|now destruct n].
      intros [= <-]. left. now destruct r.
Qed.

(** Along a [run], where a render is committed between any two events,
    [isModalLoading] is true exactly while one call waits for the Fact
    Provider, and no two calls ever wait. *)
Lemma run_oneFetch (es : list Event) :
  forall s s', oneFetch s -> run es s = Some s' -> oneFetch s'.
Proof.
  induction es as [|e es IH]; intros s s' Hs; cbn [run].
  - now intros [= <-].
  - destruct (step e s) as [s1|] eqn:He; [|discriminate].
    apply IH. exact (step_oneFetch e s s1 Hs He).
Qed.

Lemma initialApp_oneFetch : oneFetch initialApp.
Proof. left. split; reflexivity. Qed.

(** ** Further properties of the interaction core *)

(** *** The catalog *)

Lemma itemToClick_catalog (item : ClickableItem) :
  In item INTERACTIVE_ITEMS -> itemToClick (types.id item) = Some item.
Proof.
  intros [<-|[<-|[<-|[]]]]; reflexivity.
Qed.

Lemma itemToClick_found (c : string) (item : ClickableItem) :
  itemToClick c = Some item ->
  In item INTERACTIVE_ITEMS /\ types.id item = c.
Proof.
  unfold itemToClick. intros H. apply find_some in H as [Hin Heq].
  split; [exact Hin|]. now apply String.eqb_eq.
Qed.

(** X1.  The lookup of line 72 finds an item exactly when the catalog holds
    an item of that id, and then it is that item: the ids of the catalog
    are keys. *)
Theorem itemToClick_iff (c : string) (item : ClickableItem) :
  itemToClick c = Some item <->
  In item INTERACTIVE_ITEMS /\ types.id item = c.
Proof.
  split.
  - apply itemToClick_found.
  - intros [Hin <-]. now apply itemToClick_catalog.
Qed.

(** *** Runs of the gesture effect *)

(** X2.  React runs the gesture effect again whenever [handleItemClick]
    changes, that is after every select.  A run that follows another run
    without a new sample fires no select event and leaves the detail view
    as it is, whatever the page under the cursor has become. *)
Theorem gestureEffect_rerun_silent (doc doc' : DOM.Document) (s : App) :
  let s1 := fst (gestureEffect doc s) in
  snd (gestureEffect doc' s1) = None /\
  detail (fst (gestureEffect doc' s1)) = detail s1.
Proof.
  cbv zeta.
  assert (Hnone : snd (gestureEffect doc' (fst (gestureEffect doc s))) = None).
  { destruct (handData s) as [data|] eqn:Hd.
    - destruct (gestureEffect_cells doc data s Hd) as (_ & Hw & Hp & Hh).
      rewrite (gestureEffect_fired doc' data); [|congruence].
      rewrite Hw, Hp. unfold firedBy.
      now destruct (isPinching s).
    - unfold gestureEffect at 2. rewrite Hd. cbn [fst].
      unfold gestureEffect. now rewrite Hd. }
  split; [exact Hnone|].
  destruct (gestureEffect_quiet doc' _ Hnone) as (H1 & H2 & H3 & H4).
  unfold detail. now rewrite H1, H2, H3, H4.
Qed.

Lemma gestureEffect_fired_detail (doc : DOM.Document) (s : App)
      (item : ClickableItem) :
  snd (gestureEffect doc s) = Some item ->
  detail (fst (gestureEffect doc s)) = detail (handleItemClick item s).
Proof.
  unfold gestureEffect.
  destruct (handData s) as [data|]; [|discriminate].
  destruct (cardIdAt doc data) as [c|]; [|discriminate].
  destruct (isPinching s && negb (wasPinchingRef s) && negb (c =? ""));
    [|discriminate].
  destruct (itemToClick c) as [item'|]; [|discriminate].
  cbn [fst snd]. intros [= ->]. unfold handleItemClick.
  replace (alreadyOpenOrLoading item (setHoveredItemId (Some c) s))
    with (alreadyOpenOrLoading item s) by reflexivity.
  now destruct (alreadyOpenOrLoading item s).
Qed.

(** X3.  A pinch that starts over the card of a catalog item is a click on
    that card: the frame fires the select event of the item, the card id
    becomes the hover target, and the detail view and the waiting calls
    end as [handleItemClick item] leaves them. *)
Theorem pinch_is_click (item : ClickableItem) (data : HandData)
        (doc : DOM.Document) (s : App) :
  In item INTERACTIVE_ITEMS ->
  cardIdAt doc data = Some (types.id item) ->
  types.isPinching data = true ->
  wasPinchingRef s = false ->
  snd (processFrame data doc s) = Some item /\
  hoveredItemId (fst (processFrame data doc s)) = Some (types.id item) /\
  detail (fst (processFrame data doc s)) = detail (handleItemClick item s).
Proof.
  intros Hin Hc Hp Hw.
  assert (Hf : snd (processFrame data doc s) = Some item).
  { rewrite processFrame_fired, Hp, Hw. unfold firedBy, catalogHit.
    cbn [andb negb fst snd]. rewrite Hc. now apply itemToClick_catalog. }
  split; [exact Hf|]. split.
  - unfold processFrame.
    now destruct (gestureEffect_cells doc data (onHandData data s) eq_refl)
      as (-> & _).
  - unfold processFrame in *.
    rewrite (gestureEffect_fired_detail doc (onHandData data s) item Hf).
    unfold handleItemClick.
    replace (alreadyOpenOrLoading item (onHandData data s))
      with (alreadyOpenOrLoading item s) by reflexivity.
    now destruct (alreadyOpenOrLoading item s).
Qed.

Lemma pinch_is_click_witness :
  In Sample.saturn INTERACTIVE_ITEMS /\
  cardIdAt (Sample.pageOver "saturn") (Sample.hand true)
  = Some (types.id Sample.saturn) /\
  types.isPinching (Sample.hand true) = true /\
  wasPinchingRef initialApp = false /\
  snd (processFrame (Sample.hand true) (Sample.pageOver "saturn") initialApp)
  = Some Sample.saturn /\
  hoveredItemId
    (fst (processFrame (Sample.hand true) (Sample.pageOver "saturn")
            initialApp))
  = Some (types.id Sample.saturn) /\
  detail
    (fst (processFrame (Sample.hand true) (Sample.pageOver "saturn")
            initialApp))
  = detail (handleItemClick Sample.saturn initialApp).
Proof.
  split; [right; left; reflexivity|]. split; [reflexivity|].
  split; [reflexivity|]. split; [reflexivity|].
  apply (pinch_is_click Sample.saturn (Sample.hand true)
           (Sample.pageOver "saturn") initialApp);
    try reflexivity.
  right; left; reflexivity.
Defined.

(** *** Closing and opening again *)


(** *** What every run from the first render keeps *)

Lemma detailConsistent_detail (s s' : App) :
  detail s' = detail s -> detailConsistent s -> detailConsistent s'.
Proof.
  unfold detail, detailConsistent. intros H.
  injection H as Hs Hc Hl Ha. now rewrite Hs, Hc, Hl, Ha.
Qed.

Lemma handleItemClick_detailConsistent (item : ClickableItem) (s : App) :
  detailConsistent s -> detailConsistent (handleItemClick item s).
Proof.
  intros Hs. destruct (alreadyOpenOrLoading item s) eqn:Hg.
  - now rewrite handleItemClick_blocked.
  - rewrite (handleItemClick_opens item s Hg).
    apply alreadyOpenOrLoading_false in Hg as [Hl _].
    destruct Hs as [[_ Ha]|[Hl' _]]; [|congruence].
    right. cbn. rewrite Ha. repeat split. exists item. auto.
Qed.

Lemma closeModal_detailConsistent (s : App) :
  detailConsistent s -> detailConsistent (closeModal s).
Proof.
  intros [[Hl Ha]|(Hl & _ & item & Ha & _)]; [left|right]; cbn.
  - now split.
  - repeat split; [exact Hl|]. exists item. auto.
Qed.

Lemma step_detailConsistent (e : Event) (s s' : App) :
  detailConsistent s -> step e s = Some s' -> detailConsistent s'.
Proof.
  intros Hs. destruct e as [data doc|item| |n r]; cbn [step].
  - intros [= <-]. unfold processFrame.
    assert (Hs0 : detailConsistent (onHandData data s)) by exact Hs.
    destruct (gestureEffect_detail doc (onHandData data s)) as [H|[item H]].
    + exact (detailConsistent_detail _ _ H Hs0).
    + exact (detailConsistent_detail _ _ H
               (handleItemClick_detailConsistent item _ Hs0)).
  - intros [= <-]. now apply handleItemClick_detailConsistent.
  - intros [= <-]. now apply closeModal_detailConsistent.
  - unfold settle.
    destruct Hs as [[_ Ha]|(_ & _ & item & Ha & _)]; rewrite Ha.
    + now destruct n.
    + destruct n as [|n]; [|now destruct n].
      intros [= <-]. left. now destruct r.
Qed.

Lemma run_detailConsistent (es : list Event) :
  forall s s',
    detailConsistent s -> run es s = Some s' -> detailConsistent s'.
Proof.
  induction es as [|e es IH]; intros s s' Hs; cbn [run].
  - now intros [= <-].
  - destruct (step e s) as [s1|] eqn:He; [|discriminate].
    apply IH. exact (step_detailConsistent e s s1 Hs He).
Qed.

Lemma initialApp_detailConsistent : detailConsistent initialApp.
Proof. left. split; reflexivity. Qed.

(** X7.  While a fetch is in flight the modal holds no text of an earlier
    item: in every state reached from the first render, [isModalLoading]
    true implies that [modalContent] is the empty string. *)
Theorem loading_content_blank (es : list Event) (s : App) :
  run es initialApp = Some s ->
  isModalLoading s = true ->
  modalContent s = "".
Proof.
  intros Hr Hl.
  destruct (run_detailConsistent es _ s initialApp_detailConsistent Hr)
    as [[Hl' _]|(_ & Hc & _)]; [congruence|exact Hc].
Qed.

Lemma loading_content_blank_witness :
  let es := [CardClick Sample.earth;
             FactSettled 0 (Fulfilled "Earth is round.");
             CardClick Sample.saturn] in
  let s1 := fst (resumeItemClick (Fulfilled "Earth is round.")
                   (setAwaiting [] (handleItemClick Sample.earth initialApp))) in
  let s := handleItemClick Sample.saturn s1 in
  modalContent s1 = "Earth is round." /\
  run es initialApp = Some s /\
  isModalLoading s = true /\
  modalContent s = "".
Proof.
  cbv zeta. split; [reflexivity|]. split; [reflexivity|].
  split; [reflexivity|].
  apply (loading_content_blank
           [CardClick Sample.earth;
            FactSettled 0 (Fulfilled "Earth is round.");
            CardClick Sample.saturn]); reflexivity.
Defined.

(** *** The gesture cells *)

Lemma resumeItemClick_gesture_cells (r : Settled) (s : App) :
  let s' := fst (resumeItemClick r s) in
  handData s' = handData s /\ isPinching s' = isPinching s /\
  wasPinchingRef s' = wasPinchingRef s /\ hoveredItemId s' = hoveredItemId s.
Proof. destruct r; cbn; auto. Qed.

Lemma step_gesture_cells (e : Event) (s s' : App) :
  gestureConsistent s ->
  step e s = Some s' ->
  gestureConsistent s' /\ handData s' = lastSample [e] (handData s).
Proof.
  unfold gestureConsistent.
  intros [Hw Hp]. destruct e as [data doc|item| |n r]; cbn [step lastSample].
  - intros [= <-]. unfold processFrame.
    destruct (gestureEffect_cells doc data (onHandData data s) eq_refl)
      as (_ & Hw' & Hp' & Hh').
    rewrite Hw', Hp', Hh'. cbn. auto.
  - intros [= <-].
    destruct (handleItemClick_gesture_cells item s) as (Hh' & Hp' & Hw' & _).
    rewrite Hh', Hp', Hw'. auto.
  - intros [= <-]. cbn. auto.
  - unfold settle. destruct (nth_error (awaiting s) n); [|discriminate].
    intros [= <-].
    destruct (resumeItemClick_gesture_cells r
                (setAwaiting (removeAt n (awaiting s)) s))
      as (Hh' & Hp' & Hw' & _).
    rewrite Hh', Hp', Hw'. cbn. auto.
Qed.

Lemma run_gesture_cells (es : list Event) :
  forall s s',
    gestureConsistent s ->
    run es s = Some s' ->
    gestureConsistent s' /\ handData s' = lastSample es (handData s).
Proof.
  induction es as [|e es IH]; intros s s' Hs; cbn [run].
  - intros [= <-]. now split.
  - destruct (step e s) as [s1|] eqn:He; [|discriminate].
    destruct (step_gesture_cells e s s1 Hs He) as [Hs1 Hh1].
    intros Hr. destruct (IH s1 s' Hs1 Hr) as [Hs' Hh'].
    split; [exact Hs'|]. rewrite Hh', Hh1.
    now destruct e.
Qed.

(** X8.  In every state reached from the first render, [handData] is the
    sample of the last gesture frame, [isPinching] and [wasPinchingRef] are
    both its pinch flag (false before the first frame), and the cursor that
    is rendered is drawn at that sample with that flag; clicks, closes and
    settled fetches move none of this. *)
Theorem cursor_is_last_sample (es : list Event) (s : App)
        (t : useHandTracking.result) (k : nat) :
  run es initialApp = Some s ->
  handData s = lastSample es None /\
  wasPinchingRef s = isPinching s /\
  cursor (render (mkMounted s t k)) =
    match lastSample es None with
    | Some data =>
        Some (VisionCursor.mkProps (types.x (types.cursor data))
                (types.y (types.cursor data)) (types.isPinching data))
    | None => None
    end.
Proof.
  intros Hr.
  assert (H0 : gestureConsistent initialApp) by (split; reflexivity).
  destruct (run_gesture_cells es initialApp s H0 Hr) as [[Hw Hp] Hh].
  cbn [handData initialApp] in Hh.
  split; [exact Hh|]. split; [exact Hw|].
  cbn [render cursor app]. rewrite Hp, Hh.
  now destruct (lastSample es None).
Qed.

Lemma cursor_is_last_sample_witness :
  let es := [GestureFrame (Sample.hand true) (Sample.pageOver "saturn");
             CloseModal;
             GestureFrame (Sample.hand false) Sample.pageBackground] in
  let s :=
    fst (processFrame (Sample.hand false) Sample.pageBackground
           (closeModal
              (fst (processFrame (Sample.hand true)
                      (Sample.pageOver "saturn") initialApp)))) in
  run es initialApp = Some s /\
  handData s = lastSample es None /\
  wasPinchingRef s = isPinching s /\
  cursor (render (mkMounted s SampleMounted.ready 0)) =
    Some (VisionCursor.mkProps 640%float 360.5%float false).
Proof.
  cbv zeta. split; [vm_compute; reflexivity|].
  apply (cursor_is_last_sample
           [GestureFrame (Sample.hand true) (Sample.pageOver "saturn");
            CloseModal;
            GestureFrame (Sample.hand false) Sample.pageBackground]
           _ SampleMounted.ready 0).
  vm_compute. reflexivity.
Defined.

(** *** The console *)

Lemma gestureEffect_console (doc : DOM.Document) (s : App) :
  console (fst (gestureEffect doc s)) = console s.
Proof.
  unfold gestureEffect.
  destruct (handData s) as [data|]; [|reflexivity].
  destruct (cardIdAt doc data) as [c|]; [|reflexivity].
  destruct (isPinching s && negb (wasPinchingRef s) && negb (c =? ""));
    [|reflexivity].
  destruct (itemToClick c) as [item|]; [|reflexivity].
  cbn [fst]. unfold handleItemClick.
  now destruct (alreadyOpenOrLoading item (setHoveredItemId (Some c) s)).
Qed.

(** X9.  [console.error] is called once for every rejection of the Fact
    Provider, with its error, and by nothing else: a run appends to the
    console exactly the errors of its rejections, in their order. *)
Theorem console_logs_rejections (es : list Event) :
  forall s s',
    run es s = Some s' ->
    console s' = console s ++ rejections es.
Proof.
  induction es as [|e es IH]; intros s s'; cbn [run].
  - intros [= <-]. cbn. now rewrite app_nil_r.
  - destruct (step e s) as [s1|] eqn:He; [|discriminate].
    intros Hr. rewrite (IH s1 s' Hr).
    destruct e as [data doc|item| |n r]; cbn [step] in He.
    + injection He as <-. unfold processFrame.
      now rewrite gestureEffect_console.
    + injection He as <-. unfold handleItemClick.
      now destruct (alreadyOpenOrLoading item s).
    + now injection He as <-.
    + unfold settle in He.
      destruct (nth_error (awaiting s) n); [|discriminate].
      injection He as <-. destruct r as [fact|err]; cbn; [reflexivity|].
      now rewrite <- app_assoc.
Qed.

Lemma console_logs_rejections_witness :
  let es := [CardClick Sample.earth; FactSettled 0 (Rejected "503");
             CardClick Sample.earth; CloseModal] in
  let s' :=
    closeModal
      (handleItemClick Sample.earth
         (fst (resumeItemClick (Rejected "503")
                 (setAwaiting [] (handleItemClick Sample.earth initialApp))))) in
  run es initialApp = Some s' /\
  console s' = console initialApp ++ rejections es /\
  console s' = ["503"].
Proof.
  cbv zeta. split; [vm_compute; reflexivity|]. split; [|reflexivity].
  apply (console_logs_rejections
           [CardClick Sample.earth; FactSettled 0 (Rejected "503");
            CardClick Sample.earth; CloseModal] initialApp).
  vm_compute. reflexivity.
Defined.

(** ** Readiness *)

Lemma gestureEffect_isAppReady (doc : DOM.Document) (s : App) :
  isAppReady (fst (gestureEffect doc s)) = isAppReady s.
Proof.
  unfold gestureEffect.
  destruct (handData s) as [data|]; [|reflexivity].
  destruct (cardIdAt doc data) as [c|]; [|reflexivity].
  destruct (isPinching s && negb (wasPinchingRef s) && negb (c =? ""));
    [|reflexivity].
  destruct (itemToClick c) as [item|]; [|reflexivity].
  cbn [fst]. unfold handleItemClick.
  now destruct (alreadyOpenOrLoading item (setHoveredItemId (Some c) s)).
Qed.

(** No event of the interaction core writes [isAppReady]. *)
Lemma step_isAppReady (e : Event) (s s' : App) :
  step e s = Some s' -> isAppReady s' = isAppReady s.
Proof.
  destruct e as [data doc|item| |n r]; cbn [step].
  - intros [= <-]. unfold processFrame.
    now rewrite gestureEffect_isAppReady.
  - intros [= <-]. unfold handleItemClick.
    now destruct (alreadyOpenOrLoading item s).
  - now intros [= <-].
  - unfold settle. destruct (nth_error (awaiting s) n); [|discriminate].
    intros [= <-]. now destruct r.
Qed.

Lemma readinessEffect_app (m : Mounted) :
  app (readinessEffect m) = app m /\
  tracking (readinessEffect m) = tracking m /\
  timers m <= timers (readinessEffect m).
Proof.
  unfold readinessEffect.
  destruct (useHandTracking.isReady (tracking m)
            && negb (truthy (useHandTracking.error (tracking m))));
    cbn; auto.
Qed.

Lemma stepMounted_isAppReady (e : MountedEvent) (m m' : Mounted) :
  stepMounted e m = Some m' ->
  isAppReady (app m) = true -> isAppReady (app m') = true.
Proof.
  destruct e as [e|t|]; cbn [stepMounted].
  - destruct (step e (app m)) as [s|] eqn:He; [|discriminate].
    intros [= <-]. cbn. now rewrite (step_isAppReady e _ _ He).
  - destruct (sameDeps (tracking m) t); intros [= <-]; [auto|].
    now destruct (readinessEffect_app (mkMounted (app m) t (timers m)))
      as (-> & _).
  - destruct (timers m); [discriminate|]. now intros [= <-].
Qed.

(** X10.  Readiness is permanent: once [isAppReady] is true, no event makes
    it false again, so the overlay is never rendered again and the main
    view stays opaque, also when the tracker reports an error later; such
    an error is not shown. *)
Theorem ready_is_permanent (es : list MountedEvent) :
  forall m m',
    isAppReady (app m) = true ->
    runMounted es m = Some m' ->
    isAppReady (app m') = true /\
    overlay (render m') = None /\
    mainOpaque (render m') = true.
Proof.
  induction es as [|e es IH]; intros m m' Hm; cbn [runMounted].
  - intros [= <-]. cbn. now rewrite Hm.
  - destruct (stepMounted e m) as [m1|] eqn:He; [|discriminate].
    apply IH. exact (stepMounted_isAppReady e m m1 He Hm).
Qed.

Lemma ready_is_permanent_witness :
  let m := mkMounted (setIsAppReady true initialApp) SampleMounted.ready 0 in
  let es := [AppEvent (CardClick Sample.earth);
             TrackingRendered SampleMounted.failed;
             AppEvent CloseModal] in
  let m' :=
    mkMounted (closeModal (handleItemClick Sample.earth (app m)))
      SampleMounted.failed 0 in
  isAppReady (app m) = true /\
  runMounted es m = Some m' /\
  isAppReady (app m') = true /\
  overlay (render m') = None /\
  mainOpaque (render m') = true.
Proof.
  cbv zeta. split; [reflexivity|]. split; [vm_compute; reflexivity|].
  apply (ready_is_permanent
           [AppEvent (CardClick Sample.earth);
            TrackingRendered SampleMounted.failed;
            AppEvent CloseModal]
           (mkMounted (setIsAppReady true initialApp) SampleMounted.ready 0)).
  - reflexivity.
  - vm_compute. reflexivity.
Defined.

Lemma runMounted_ready_source (es : list MountedEvent) :
  forall m m',
    runMounted es m = Some m' ->
    isAppReady (app m') = true \/ 1 <= timers m' ->
    (isAppReady (app m) = true \/ 1 <= timers m) \/
    exists t, In (TrackingRendered t) es /\ readyWithoutError t = true.
Proof.
  induction es as [|e es IH]; intros m m'; cbn [runMounted].
  - intros [= <-] H. now left.
  - destruct (stepMounted e m) as [m1|] eqn:He; [|discriminate].
    intros Hr H.
    destruct (IH m1 m' Hr H) as [H1|(t & Hin & Ht)];
      [|right; exists t; split; [now right|exact Ht]].
    destruct e as [e|t|]; cbn [stepMounted] in He.
    + destruct (step e (app m)) as [s|] eqn:Hs; [|discriminate].
      injection He as <-. cbn in H1.
      rewrite (step_isAppReady e _ _ Hs) in H1. now left.
    + destruct (sameDeps (tracking m) t); injection He as <-; [now left|].
      unfold readinessEffect in H1. cbn [tracking] in H1.
      destruct (useHandTracking.isReady t
                && negb (truthy (useHandTracking.error t))) eqn:Ht.
      * right. exists t. split; [now left|exact Ht].
      * now left.
    + destruct (timers m) as [|k]; [discriminate|].
      left. right. lia.
Qed.

(** X11.  The application becomes ready only through the readiness
    effect: when [isAppReady] is true after a run from the first render,
    the hook has returned, at the first render or at a later one, a result
    that is ready and has no error, or the empty string as its error. *)
Theorem ready_needs_tracker (t0 : useHandTracking.result)
        (es : list MountedEvent) (m : Mounted) :
  runMounted es (mount t0) = Some m ->
  isAppReady (app m) = true ->
  readyWithoutError t0 = true \/
  exists t, In (TrackingRendered t) es /\ readyWithoutError t = true.
Proof.
  intros Hr Hm.
  destruct (runMounted_ready_source es _ m Hr (or_introl Hm))
    as [[H|H]|H]; [| |now right].
  - unfold mount in H.
    destruct (readinessEffect_app (mkMounted initialApp t0 0)) as (Ha & _).
    rewrite Ha in H. discriminate H.
  - left. unfold mount, readinessEffect in H. cbn [tracking] in H.
    fold (readyWithoutError t0) in H.
    destruct (readyWithoutError t0); [reflexivity|].
    cbn in H. lia.
Qed.

Lemma ready_needs_tracker_witness :
  let es := [TrackingRendered SampleMounted.failed;
             TrackingRendered SampleMounted.ready; TimerFired] in
  let m := mkMounted (setIsAppReady true initialApp) SampleMounted.ready 0 in
  runMounted es (mount SampleMounted.notReady) = Some m /\
  isAppReady (app m) = true /\
  (readyWithoutError SampleMounted.notReady = true \/
   exists t, In (TrackingRendered t) es /\ readyWithoutError t = true).
Proof.
  cbv zeta. split; [vm_compute; reflexivity|]. split; [reflexivity|].
  apply (ready_needs_tracker SampleMounted.notReady
           [TrackingRendered SampleMounted.failed;
            TrackingRendered SampleMounted.ready; TimerFired]
           (mkMounted (setIsAppReady true initialApp) SampleMounted.ready 0)).
  - vm_compute. reflexivity.
  - reflexivity.
Defined.

Lemma stepMounted_timer_kept (e : MountedEvent) (m m' : Mounted) :
  stepMounted e m = Some m' ->
  isAppReady (app m) = true \/ 1 <= timers m ->
  isAppReady (app m') = true \/ 1 <= timers m'.
Proof.
  intros He [H|H]; [left; exact (stepMounted_isAppReady e m m' He H)|].
  destruct e as [e|t|]; cbn [stepMounted] in He.
  - destruct (step e (app m)); [|discriminate]. injection He as <-.
    now right.
  - destruct (sameDeps (tracking m) t); injection He as <-; [now right|].
    right.
    pose proof (readinessEffect_app (mkMounted (app m) t (timers m)))
      as (_ & _ & Hle).
    cbn [timers] in Hle. lia.
  - destruct (timers m); [lia|]. injection He as <-. now left.
Qed.

(** X12.  The timer of the readiness effect is never cleared.  When the
    tracker is ready without an error at the first render, then after any
    run, also one in which the tracker reports an error or stops being
    ready, the application is ready or a timer is still pending whose
    firing makes it ready. *)
Theorem readiness_timer_not_cancelled (t0 : useHandTracking.result)
        (es : list MountedEvent) (m : Mounted) :
  readyWithoutError t0 = true ->
  runMounted es (mount t0) = Some m ->
  isAppReady (app m) = true \/
  exists m',
    stepMounted TimerFired m = Some m' /\ isAppReady (app m') = true.
Proof.
  intros Ht Hr.
  assert (H0 : isAppReady (app (mount t0)) = true \/ 1 <= timers (mount t0)).
  { right. unfold mount, readinessEffect. cbn [tracking].
    fold (readyWithoutError t0). rewrite Ht. cbn. lia. }
  assert (H : isAppReady (app m) = true \/ 1 <= timers m).
  { revert Hr H0. generalize (mount t0). revert m.
    induction es as [|e es IH]; intros m m0; cbn [runMounted].
    - now intros [= <-].
    - destruct (stepMounted e m0) as [m1|] eqn:He; [|discriminate].
      intros Hr H0. apply (IH m m1 Hr).
      exact (stepMounted_timer_kept e m0 m1 He H0). }
  destruct H as [H|H]; [now left|]. right. cbn [stepMounted].
  destruct (timers m) as [|k]; [lia|].
  eexists. split; reflexivity.
Qed.

Lemma readiness_timer_not_cancelled_witness :
  let es := [TrackingRendered SampleMounted.failed;
             AppEvent (GestureFrame (Sample.hand false)
                         Sample.pageBackground)] in
  let m :=
    mkMounted (fst (processFrame (Sample.hand false) Sample.pageBackground
                      initialApp))
      SampleMounted.failed 1 in
  readyWithoutError SampleMounted.ready = true /\
  runMounted es (mount SampleMounted.ready) = Some m /\
  (isAppReady (app m) = true \/
   exists m',
     stepMounted TimerFired m = Some m' /\ isAppReady (app m') = true).
Proof.
  cbv zeta. split; [reflexivity|]. split; [vm_compute; reflexivity|].
  apply (readiness_timer_not_cancelled SampleMounted.ready
           [TrackingRendered SampleMounted.failed;
            AppEvent (GestureFrame (Sample.hand false)
                        Sample.pageBackground)]).
  - reflexivity.
  - vm_compute. reflexivity.
Defined.

(** ** The rendered tree *)

Lemma catalog_id_inj (a b : ClickableItem) :
  In a INTERACTIVE_ITEMS -> In b INTERACTIVE_ITEMS ->
  types.id a = types.id b -> a = b.
Proof.
  intros Ha Hb Hid.
  pose proof (itemToClick_catalog a Ha) as H1.
  pose proof (itemToClick_catalog b Hb) as H2.
  rewrite Hid in H1. congruence.
Qed.

Lemma at_most_one_id (p : string -> bool) :
  (forall c, p c = true -> forall c', p c' = true -> c = c') ->
  length (filter (fun item => p (types.id item)) INTERACTIVE_ITEMS) <= 1.
Proof.
  intros Hp. unfold INTERACTIVE_ITEMS. cbn [filter types.id].
  destruct (p "earth") eqn:H1, (p "saturn") eqn:H2, (p "galaxy") eqn:H3;
    cbn [length]; try lia.
  all: try (pose proof (Hp _ H1 _ H2); discriminate).
  all: try (pose proof (Hp _ H1 _ H3); discriminate).
  all: try (pose proof (Hp _ H2 _ H3); discriminate).
Qed.

Lemma filter_cards (f : ClickableCard.props -> bool) (m : Mounted) :
  length (filter f (cards (render m)))
  = length
      (filter
         (fun item =>
            f (ClickableCard.mkProps item (cardIsHovered (app m) item)
                 (cardIsSelected (app m) item) (handleItemClick item)))
         INTERACTIVE_ITEMS).
Proof.
  cbn [render cards]. induction INTERACTIVE_ITEMS as [|a l IH];
    [reflexivity|].
  cbn [map filter].
  destruct (f (ClickableCard.mkProps a (cardIsHovered (app m) a)
                 (cardIsSelected (app m) a) (handleItemClick a)));
    cbn [length]; now rewrite IH.
Qed.

(** X13.  In every render at most one card is drawn as hovered and at most
    one as selected, whatever the state: the comparisons of lines 123 and
    124 are on ids, and no two catalog items share an id. *)
Theorem at_most_one_card_marked (m : Mounted) :
  length (filter ClickableCard.isHovered (cards (render m))) <= 1 /\
  length (filter ClickableCard.isSelected (cards (render m))) <= 1.
Proof.
  rewrite !filter_cards. cbn [ClickableCard.isHovered ClickableCard.isSelected].
  unfold cardIsHovered, cardIsSelected. split.
  - destruct (hoveredItemId (app m)) as [h|]; [|cbn; lia].
    apply (at_most_one_id (fun c => h =? c)).
    intros c Hc c' Hc'.
    apply String.eqb_eq in Hc, Hc'. congruence.
  - destruct (selectedItem (app m)) as [sel|]; [|cbn; lia].
    apply (at_most_one_id (fun c => types.id sel =? c)).
    intros c Hc c' Hc'.
    apply String.eqb_eq in Hc, Hc'. congruence.
Qed.

Lemma cards_forall (P : ClickableCard.props -> Prop) (m : Mounted) :
  (forall item,
     In item INTERACTIVE_ITEMS ->
     P (ClickableCard.mkProps item (cardIsHovered (app m) item)
          (cardIsSelected (app m) item) (handleItemClick item))) ->
  Forall P (cards (render m)).
Proof.
  intros H. cbn [render cards]. apply Forall_forall.
  intros card Hin. apply in_map_iff in Hin as (item & <- & Hitem).
  now apply H.
Qed.

(** X14.  After a gesture frame the card that is drawn as hovered is the
    card under the cursor: a card of the render has [isHovered] exactly
    when the hit test of the frame gave the id of its item, and no card has
    it when the hit test was empty or gave an unknown id. *)
Theorem hovered_card_is_under_cursor (data : HandData) (doc : DOM.Document)
        (s : App) (t : useHandTracking.result) (k : nat) :
  Forall
    (fun card =>
       ClickableCard.isHovered card = true <->
       cardIdAt doc data = Some (types.id (ClickableCard.item card)))
    (cards (render (mkMounted (fst (processFrame data doc s)) t k))).
Proof.
  apply cards_forall. intros item _.
  cbn [ClickableCard.isHovered ClickableCard.item app].
  unfold cardIsHovered, processFrame.
  destruct (gestureEffect_cells doc data (onHandData data s) eq_refl)
    as (-> & _).
  destruct (cardIdAt doc data) as [h|].
  - rewrite String.eqb_eq. split; congruence.
  - split; discriminate.
Qed.

(** X15.  When [handleItemClick] opens a catalog item, the next render
    shows the modal open on that item, loading and without text, and draws
    the card of that item, and no other card, as selected. *)
Theorem opened_item_is_rendered (it : ClickableItem) (s : App)
        (t : useHandTracking.result) (k : nat) :
  In it INTERACTIVE_ITEMS ->
  alreadyOpenOrLoading it s = false ->
  let v := render (mkMounted (handleItemClick it s) t k) in
  modal v = InfoModal.mkProps true closeModal (Some it) "" true /\
  Forall
    (fun card =>
       ClickableCard.isSelected card = true <-> ClickableCard.item card = it)
    (cards v).
Proof.
  intros Hin Hg. cbv zeta. rewrite (handleItemClick_opens it s Hg).
  split; [reflexivity|].
  apply cards_forall. intros item Hitem.
  cbn [ClickableCard.isSelected ClickableCard.item app].
  unfold cardIsSelected. cbn [selectedItem].
  rewrite String.eqb_eq. split.
  - intros Hid. symmetry. now apply catalog_id_inj.
  - now intros ->.
Qed.

Lemma opened_item_is_rendered_witness :
  let v := render (mkMounted (handleItemClick SampleMounted.galaxy initialApp)
                     SampleMounted.ready 0) in
  In SampleMounted.galaxy INTERACTIVE_ITEMS /\
  alreadyOpenOrLoading SampleMounted.galaxy initialApp = false /\
  map ClickableCard.isSelected (cards v) = [false; false; true] /\
  modal v
  = InfoModal.mkProps true closeModal (Some SampleMounted.galaxy) "" true /\
  Forall
    (fun card =>
       ClickableCard.isSelected card = true <->
       ClickableCard.item card = SampleMounted.galaxy)
    (cards v).
Proof.
  cbv zeta. split; [right; right; left; reflexivity|].
  split; [reflexivity|]. split; [reflexivity|].
  apply (opened_item_is_rendered SampleMounted.galaxy initialApp
           SampleMounted.ready 0).
  - right; right; left; reflexivity.
  - reflexivity.
Defined.

(** X16.  From pinch to text.  When a pinch starts over the card of a
    catalog item that the guard lets open, and the fetch that the frame
    issued is fulfilled, the modal is rendered open on that item with the
    fact as its content and without the loading mark. *)
Theorem pinch_then_fact_is_shown (item : ClickableItem) (data : HandData)
        (doc : DOM.Document) (fact : string) (s : App)
        (t : useHandTracking.result) (k : nat) :
  In item INTERACTIVE_ITEMS ->
  cardIdAt doc data = Some (types.id item) ->
  types.isPinching data = true ->
  wasPinchingRef s = false ->
  alreadyOpenOrLoading item s = false ->
  exists s2,
    run [GestureFrame data doc;
         FactSettled (length (awaiting s)) (Fulfilled fact)] s = Some s2 /\
    modal (render (mkMounted s2 t k))
    = InfoModal.mkProps true closeModal (Some item) fact false.
Proof.
  intros Hin Hc Hp Hw Hg. cbn [run step].
  assert (Hf : snd (processFrame data doc s) = Some item).
  { rewrite processFrame_fired, Hp, Hw. unfold firedBy, catalogHit.
    cbn [andb negb fst snd]. rewrite Hc. now apply itemToClick_catalog. }
  assert (Hd : detail (fst (processFrame data doc s))
               = (Some item, "", true, awaiting s ++ [item])).
  { unfold processFrame in *.
    rewrite (gestureEffect_fired_detail doc (onHandData data s) item Hf).
    unfold handleItemClick.
    replace (alreadyOpenOrLoading item (onHandData data s))
      with (alreadyOpenOrLoading item s) by reflexivity.
    now rewrite Hg. }
  unfold detail in Hd. injection Hd as Hsel _ _ Ha.
  destruct (settle_waiting (length (awaiting s)) (Fulfilled fact) item
              (fst (processFrame data doc s)))
    as (s2 & Hs & Hsel2 & Hl2 & Hc2 & _).
  { rewrite Ha. apply nth_error_last. }
  exists s2. rewrite Hs. split; [reflexivity|].
  cbn [render modal app]. now rewrite Hsel2, Hsel, Hl2, Hc2.
Qed.

Lemma pinch_then_fact_is_shown_witness :
  In Sample.earth INTERACTIVE_ITEMS /\
  cardIdAt (Sample.pageOver "earth") (Sample.hand true)
  = Some (types.id Sample.earth) /\
  types.isPinching (Sample.hand true) = true /\
  wasPinchingRef initialApp = false /\
  alreadyOpenOrLoading Sample.earth initialApp = false /\
  exists s2,
    run [GestureFrame (Sample.hand true) (Sample.pageOver "earth");
         FactSettled (length (awaiting initialApp))
           (Fulfilled "Earth is round.")] initialApp = Some s2 /\
    modal (render (mkMounted s2 SampleMounted.ready 0))
    = InfoModal.mkProps true closeModal (Some Sample.earth)
        "Earth is round." false.
Proof.
  split; [left; reflexivity|]. do 4 (split; [reflexivity|]).
  apply (pinch_then_fact_is_shown Sample.earth (Sample.hand true)
           (Sample.pageOver "earth") "Earth is round." initialApp
           SampleMounted.ready 0); try reflexivity.
  left; reflexivity.
Defined.

(** ** Clicks between renders *)

Lemma handleItemClickFrom_self (item : ClickableItem) (s : App) :
  handleItemClickFrom s item s = handleItemClick item s.
Proof. reflexivity. Qed.

Lemma handleItemClickFrom_blocked (closure : App) (item : ClickableItem)
      (s : App) :
  alreadyOpenOrLoading item closure = true ->
  handleItemClickFrom closure item s = s.
Proof. unfold handleItemClickFrom. now intros ->. Qed.

Lemma handleItemClickFrom_opens (closure : App) (item : ClickableItem)
      (s : App) :
  alreadyOpenOrLoading item closure = false ->
  handleItemClickFrom closure item s =
  mkApp (isAppReady s) (handData s) (isPinching s) (wasPinchingRef s)
        (hoveredItemId s) (Some item) "" true (awaiting s ++ [item])
        (console s).
Proof. unfold handleItemClickFrom. now intros ->. Qed.

(** With a render committed before every event, the component does what
    [run] says. *)
Lemma runLive_sync (es : list Event) :
  forall w, option_map current (runLive (sync es) w) = run es (current w).
Proof.
  induction es as [|e es IH]; intros w; [reflexivity|].
  cbn [sync runLive stepLive run].
  destruct e as [data doc|item| |n r]; cbn [stepLive step current].
  - apply IH.
  - apply IH.
  - apply IH.
  - destruct (settle n r (current w)) as [s|]; [apply IH|reflexivity].
Qed.

Lemma run_of_sync (es : list Event) (w0 w : Live) :
  runLive (sync es) w0 = Some w -> run es (current w0) = Some (current w).
Proof.
  intros H. rewrite <- runLive_sync, H. reflexivity.
Qed.

Lemma nth_error_middle {A : Type} (l r : list A) (a : A) :
  nth_error (l ++ a :: r) (length l) = Some a.
Proof. induction l as [|b l IH]; [reflexivity|exact IH]. Qed.

Lemma removeAt_middle {A : Type} (l r : list A) (a : A) :
  removeAt (length l) (l ++ a :: r) = l ++ r.
Proof. induction l as [|b l IH]; [reflexivity|]. cbn. now rewrite IH. Qed.





(** X5.  When a render is committed before every event is handled, at most
    one call waits for the Fact Provider in every state reached from the
    first render, and [isModalLoading] is true exactly when one does.
    (Without the commits the guard can be passed twice, see X17.) *)
Theorem one_fetch_in_flight (es : list Event) (w : Live) :
  runLive (sync es) initialLive = Some w ->
  length (awaiting (current w)) <= 1 /\
  (isModalLoading (current w) = true <-> length (awaiting (current w)) = 1) /\
  (isModalLoading (current w) = false <-> awaiting (current w) = []).
Proof.
  intros Hr. apply run_of_sync in Hr. cbn [initialLive current] in Hr.
  destruct (run_detailConsistent es _ _ initialApp_detailConsistent Hr)
    as [[Hl Ha]|(Hl & _ & item & Ha & _)]; rewrite Hl, Ha; cbn.
  - repeat split; auto; discriminate.
  - repeat split; auto; discriminate.
Qed.

Lemma one_fetch_in_flight_witness :
  let es := [GestureFrame (Sample.hand true) (Sample.pageOver "earth");
             CardClick Sample.saturn; CloseModal] in
  let s := fst (processFrame (Sample.hand true) (Sample.pageOver "earth")
                  initialApp) in
  let w := mkLive s (closeModal s) in
  runLive (sync es) initialLive = Some w /\
  awaiting (current w) = [Sample.earth] /\
  length (awaiting (current w)) <= 1 /\
  (isModalLoading (current w) = true <-> length (awaiting (current w)) = 1) /\
  (isModalLoading (current w) = false <-> awaiting (current w) = []).
Proof.
  cbv zeta. split; [vm_compute; reflexivity|]. split; [reflexivity|].
  apply (one_fetch_in_flight
           [GestureFrame (Sample.hand true) (Sample.pageOver "earth");
            CardClick Sample.saturn; CloseModal]).
  vm_compute. reflexivity.
Defined.

(** X6.  When a render is committed before every event is handled, an open
    modal never shows the answer to another item: if the modal is open
    after a promise settles, the settled call is the call that was made for
    the item shown, the content is its fact, or the fallback text after a
    rejection, the loading flag is cleared and no call is left waiting.
    (Without the commits the fact of one item can land under another, see
    X17.) *)
Theorem settled_fact_is_for_shown_item (es : list Event) (w w' : Live)
        (n : nat) (r : Settled) (shown : ClickableItem) :
  runLive (sync es) initialLive = Some w ->
  stepLive (Handled (FactSettled n r)) w = Some w' ->
  selectedItem (current w') = Some shown ->
  nth_error (awaiting (current w)) n = Some shown /\
  modalContent (current w') =
    match r with
    | Fulfilled fact => fact
    | Rejected _ => "Could not retrieve information at this time."
    end /\
  isModalLoading (current w') = false /\
  awaiting (current w') = [].
Proof.
  intros Hr Hs Hsel. apply run_of_sync in Hr.
  cbn [initialLive current] in Hr.
  pose proof (run_detailConsistent es _ _ initialApp_detailConsistent Hr)
    as Hinv.
  cbn [stepLive] in Hs. unfold settle in Hs.
  destruct Hinv as [[_ Ha]|(_ & _ & item & Ha & Hopen)]; rewrite Ha in *.
  - now destruct n.
  - destruct n as [|n]; [|now destruct n].
    cbn [nth_error] in *. injection Hs as <-. cbn [current] in *.
    assert (Hshown : selectedItem (current w) = Some shown)
      by (now destruct r).
    destruct Hopen as [Hnone|Hsome]; [congruence|].
    split; [congruence|]. now destruct r.
Qed.

Lemma settled_fact_is_for_shown_item_witness :
  let es := [CardClick Sample.earth; CloseModal;
             FactSettled 0 (Rejected "503"); CardClick Sample.saturn] in
  let s1 := fst (resumeItemClick (Rejected "503")
                   (setAwaiting []
                      (closeModal (handleItemClick Sample.earth initialApp)))) in
  let w := mkLive s1 (handleItemClick Sample.saturn s1) in
  let w' := mkLive s1
              (fst (resumeItemClick (Fulfilled "Saturn has rings.")
                      (setAwaiting [] (current w)))) in
  runLive (sync es) initialLive = Some w /\
  stepLive (Handled (FactSettled 0 (Fulfilled "Saturn has rings."))) w
  = Some w' /\
  selectedItem (current w') = Some Sample.saturn /\
  nth_error (awaiting (current w)) 0 = Some Sample.saturn /\
  modalContent (current w') = "Saturn has rings." /\
  isModalLoading (current w') = false /\
  awaiting (current w') = [].
Proof.
  cbv zeta. split; [vm_compute; reflexivity|].
  split; [vm_compute; reflexivity|]. split; [vm_compute; reflexivity|].
  apply (settled_fact_is_for_shown_item
           [CardClick Sample.earth; CloseModal;
            FactSettled 0 (Rejected "503"); CardClick Sample.saturn]
           _ _ 0 (Fulfilled "Saturn has rings.") Sample.saturn);
    vm_compute; reflexivity.
Defined.

(** X17.  The guard does not stop a click that is handled before React has
    rendered again.  A pinch that starts over the card of catalog item A
    opens A; a click on B that is handled with the callback of the render
    of that frame passes the guard, which still reads the values from
    before the open: B becomes the selected item and two calls wait.  When
    the call for A is then fulfilled, its fact is written under B, the
    loading flag is cleared and the call for B is still waiting. *)
Theorem stale_click_opens_second_fetch (a b : ClickableItem)
        (data : HandData) (doc : DOM.Document) (fact : string) (s : App) :
  In a INTERACTIVE_ITEMS ->
  cardIdAt doc data = Some (types.id a) ->
  types.isPinching data = true ->
  wasPinchingRef s = false ->
  alreadyOpenOrLoading a s = false ->
  alreadyOpenOrLoading b s = false ->
  exists w2 w3,
    runLive [Handled (GestureFrame data doc); Handled (CardClick b)]
            (mkLive s s) = Some w2 /\
    detail (current w2) = (Some b, "", true, awaiting s ++ [a; b]) /\
    stepLive (Handled (FactSettled (length (awaiting s)) (Fulfilled fact))) w2
    = Some w3 /\
    detail (current w3) = (Some b, fact, false, awaiting s ++ [b]).
Proof.
  intros Hin Hc Hp Hw Ha Hb. cbn [runLive stepLive current rendered].
  set (c := onHandData data s).
  assert (Hf : snd (gestureEffect doc c) = Some a).
  { pose proof (processFrame_fired data doc s) as H.
    unfold processFrame in H. fold c in H. rewrite H, Hp, Hw.
    unfold firedBy, catalogHit. cbn [andb negb fst snd].
    rewrite Hc. now apply itemToClick_catalog. }
  assert (Hd : detail (fst (gestureEffect doc c))
               = (Some a, "", true, awaiting s ++ [a])).
  { rewrite (gestureEffect_fired_detail doc c a Hf).
    rewrite (handleItemClick_opens a c Ha). reflexivity. }
  assert (Hbc : alreadyOpenOrLoading b c = false) by exact Hb.
  rewrite (handleItemClickFrom_opens c b _ Hbc).
  unfold detail in Hd. injection Hd as _ _ _ Haw.
  remember (fst (gestureEffect doc c)) as g eqn:Hg. clear Hg.
  rewrite Haw.
  replace ((awaiting s ++ [a]) ++ [b]) with (awaiting s ++ a :: [b])
    by (now rewrite <- app_assoc).
  eexists. eexists. split; [reflexivity|]. cbn [current].
  split; [reflexivity|].
  unfold settle. cbn [awaiting setAwaiting].
  rewrite nth_error_middle, removeAt_middle.
  split; reflexivity.
Qed.

Lemma stale_click_opens_second_fetch_witness :
  In Sample.earth INTERACTIVE_ITEMS /\
  cardIdAt (Sample.pageOver "earth") (Sample.hand true)
  = Some (types.id Sample.earth) /\
  types.isPinching (Sample.hand true) = true /\
  wasPinchingRef initialApp = false /\
  alreadyOpenOrLoading Sample.earth initialApp = false /\
  alreadyOpenOrLoading Sample.saturn initialApp = false /\
  exists w2 w3,
    runLive [Handled (GestureFrame (Sample.hand true)
                        (Sample.pageOver "earth"));
             Handled (CardClick Sample.saturn)]
            (mkLive initialApp initialApp) = Some w2 /\
    detail (current w2)
    = (Some Sample.saturn, "", true,
       awaiting initialApp ++ [Sample.earth; Sample.saturn]) /\
    stepLive (Handled (FactSettled (length (awaiting initialApp))
                         (Fulfilled "fact-A"))) w2
    = Some w3 /\
    detail (current w3)
    = (Some Sample.saturn, "fact-A", false,
       awaiting initialApp ++ [Sample.saturn]).
Proof.
  split; [left; reflexivity|]. do 5 (split; [reflexivity|]).
  apply (stale_click_opens_second_fetch Sample.earth Sample.saturn
           (Sample.hand true) (Sample.pageOver "earth") "fact-A" initialApp);
    try reflexivity.
  left; reflexivity.
Defined.

(** *** What holds under every schedule *)

Lemma loadingConsistent_detail (s s' : App) :
  detail s' = detail s -> loadingConsistent s -> loadingConsistent s'.
Proof.
  unfold detail, loadingConsistent. intros H.
  injection H as Hs Hc Hl Ha. now rewrite Hs, Hc, Hl, Ha.
Qed.

Lemma handleItemClickFrom_loadingConsistent (closure : App)
      (item : ClickableItem) (s : App) :
  loadingConsistent s -> loadingConsistent (handleItemClickFrom closure item s).
Proof.
  intros Hs. destruct (alreadyOpenOrLoading item closure) eqn:Hg.
  - now rewrite handleItemClickFrom_blocked.
  - rewrite (handleItemClickFrom_opens closure item s Hg).
    intros _. cbn. split; [reflexivity|]. split.
    + now destruct (awaiting s).
    + intros shown [= <-]. apply in_or_app. right. now left.
Qed.

Lemma stepLive_loadingConsistent (e : LiveEvent) (w w' : Live) :
  loadingConsistent (current w) ->
  stepLive e w = Some w' ->
  loadingConsistent (current w').
Proof.
  intros Hw. destruct e as [|[data doc|item| |n r]]; cbn [stepLive].
  - now intros [= <-].
  - intros [= <-]. cbn [current].
    assert (H0 : loadingConsistent (onHandData data (current w))) by exact Hw.
    destruct (gestureEffect_detail doc (onHandData data (current w)))
      as [H|[item H]].
    + exact (loadingConsistent_detail _ _ H H0).
    + apply (loadingConsistent_detail _ _ H).
      rewrite <- handleItemClickFrom_self.
      now apply handleItemClickFrom_loadingConsistent.
  - intros [= <-]. now apply handleItemClickFrom_loadingConsistent.
  - intros [= <-]. cbn [current]. intros Hl.
    destruct (Hw Hl) as (_ & Ha & _).
    cbn. split; [reflexivity|]. split; [exact Ha|discriminate].
  - unfold settle. destruct (nth_error (awaiting (current w)) n);
      [|discriminate].
    intros [= <-]. cbn [current]. intros Hl. now destruct r.
Qed.

Lemma runLive_loadingConsistent (es : list LiveEvent) :
  forall w w',
    loadingConsistent (current w) ->
    runLive es w = Some w' ->
    loadingConsistent (current w').
Proof.
  induction es as [|e es IH]; intros w w' Hw; cbn [runLive].
  - now intros [= <-].
  - destruct (stepLive e w) as [w1|] eqn:He; [|discriminate].
    apply IH. exact (stepLive_loadingConsistent e w w1 Hw He).
Qed.

(** X18.  Whatever the order of events and renders from the first render
    on, also when clicks are handled with stale callbacks: while
    [isModalLoading] is true, [modalContent] is the empty string, a call
    waits for the Fact Provider, and when the modal is open the call for
    the item it shows is among the waiting ones. *)
Theorem loading_means_fetch_pending (es : list LiveEvent) (w : Live) :
  runLive es initialLive = Some w ->
  isModalLoading (current w) = true ->
  modalContent (current w) = "" /\
  awaiting (current w) <> [] /\
  forall shown,
    selectedItem (current w) = Some shown -> In shown (awaiting (current w)).
Proof.
  intros Hr.
  apply (runLive_loadingConsistent es initialLive w); [|exact Hr].
  intros H. discriminate H.
Qed.

Lemma loading_means_fetch_pending_witness :
  let es := [Handled (GestureFrame (Sample.hand true)
                        (Sample.pageOver "earth"));
             Handled (CardClick Sample.saturn)] in
  let w :=
    mkLive (rendered SampleLive.afterPinchOnEarth)
      (handleItemClickFrom (rendered SampleLive.afterPinchOnEarth)
         Sample.saturn (current SampleLive.afterPinchOnEarth)) in
  runLive es initialLive = Some w /\
  isModalLoading (current w) = true /\
  awaiting (current w) = [Sample.earth; Sample.saturn] /\
  modalContent (current w) = "" /\
  awaiting (current w) <> [] /\
  forall shown,
    selectedItem (current w) = Some shown -> In shown (awaiting (current w)).
Proof.
  cbv zeta. split; [vm_compute; reflexivity|]. split; [reflexivity|].
  split; [reflexivity|].
  apply (loading_means_fetch_pending
           [Handled (GestureFrame (Sample.hand true)
                       (Sample.pageOver "earth"));
            Handled (CardClick Sample.saturn)]).
  - vm_compute. reflexivity.
  - reflexivity.
Defined.
